(** * file-stats-api: the directory scan, the report and its paginated views

    A shallow embedding of [main.py].  Python integers are [Z], Python
    strings are [string] (byte strings; case folding and white space are the
    ASCII ones), a Python list is a [list], the [defaultdict] of per-extension
    accumulators and the [Dict] of the report are association lists in
    insertion order, an exception is a value of [exn] carried by [result],
    and the logger is a list of records threaded through the calls. *)

From Stdlib Require Import ZArith NArith List String Ascii Bool Lia.
From Stdlib Require Import Permutation Sorted.
From Stdlib Require Import DecimalString DecimalPos DecimalN.
Import ListNotations.

Local Open Scope string_scope.
Local Open Scope Z_scope.
Local Open Scope list_scope.

(* ------------------------------------------------------------------ *)
(** ** Strings *)

Definition lower_ascii (c : ascii) : ascii :=
  let n := N_of_ascii c in
  if ((65 <=? n) && (n <=? 90))%N then ascii_of_N (n + 32) else c.

(** [str.lower()] *)
Fixpoint lower (s : string) : string :=
  match s with
  | EmptyString => EmptyString
  | String c s' => String (lower_ascii c) (lower s')
  end.

(** White space as [str_strip_whitespace] sees it: tab, line feed, vertical
    tab, form feed, carriage return and the space. *)
Definition is_space (c : ascii) : bool :=
  let n := N_of_ascii c in
  (((9 <=? n) && (n <=? 13)) || (n =? 32))%N.

Fixpoint lstrip (s : string) : string :=
  match s with
  | EmptyString => EmptyString
  | String c s' => if is_space c then lstrip s' else s
  end.

Fixpoint rstrip (s : string) : string :=
  match s with
  | EmptyString => EmptyString
  | String c s' =>
      let r := rstrip s' in
      if is_space c && String.eqb r "" then EmptyString else String c r
  end.

(** What [ConfigDict(str_strip_whitespace=True)] does to every [str] a model
    validates. *)
Definition strip (s : string) : string := lstrip (rstrip s).

Definition len_str (s : string) : Z := Z.of_nat (String.length s).

Definition startswith (pre s : string) : bool := String.prefix pre s.

Definition endswith_char (c : ascii) (s : string) : bool :=
  match String.get (String.length s - 1) s with
  | Some a => Ascii.eqb a c
  | None => false
  end.

(** [p.rfind(c)]: the highest index of [c] in [p], or [-1]. *)
Fixpoint rfind_from (c : ascii) (p : string) (i : Z) (found : Z) : Z :=
  match p with
  | EmptyString => found
  | String a p' => rfind_from c p' (i + 1) (if Ascii.eqb a c then i else found)
  end.

Definition rfind (c : ascii) (p : string) : Z := rfind_from c p 0 (-1).

(** [p[:i]] and [p[i:]] for [0 <= i <= len(p)]. *)
Definition str_upto (i : Z) (p : string) : string :=
  String.substring 0 (Z.to_nat i) p.

Definition str_from (i : Z) (p : string) : string :=
  String.substring (Z.to_nat i) (String.length p - Z.to_nat i) p.

(** The [while filenameIndex < dotIndex] loop of [genericpath._splitext]:
    [true] as soon as a character other than the dot is met, [false] when
    the [steps] characters from [filenameIndex] on are all dots. *)
Fixpoint splitext_loop (p : string) (filenameIndex : nat) (steps : nat) : bool :=
  match steps with
  | O => false
  | S k =>
      match String.get filenameIndex p with
      | Some c =>
          if Ascii.eqb c "." then splitext_loop p (S filenameIndex) k else true
      | None => true
      end
  end.

(** [os.path.splitext] (posixpath: [sep = '/'], no [altsep],
    [extsep = '.']). *)
Definition splitext (p : string) : string * string :=
  let sepIndex := rfind "/" p in
  let dotIndex := rfind "." p in
  if sepIndex <? dotIndex then
    let filenameIndex := sepIndex + 1 in
    if splitext_loop p (Z.to_nat filenameIndex) (Z.to_nat (dotIndex - filenameIndex))
    then (str_upto dotIndex p, str_from dotIndex p)
    else (p, "")
  else (p, "").

(** [os.path.join(a, b)] (posixpath). *)
Definition os_path_join (a b : string) : string :=
  if startswith "/" b then b
  else if String.eqb a "" || endswith_char "/" a then (a ++ b)%string
  else (a ++ "/" ++ b)%string.

(** [os.path.isabs] (posixpath). *)
Definition os_path_isabs (s : string) : bool := startswith "/" s.

(* ------------------------------------------------------------------ *)
(** ** Lists the way Python indexes and sorts them *)

(** [l[start:stop]] with Python's treatment of negative and out-of-range
    bounds. *)
Definition py_slice {A : Type} (l : list A) (start stop : Z) : list A :=
  let n := Z.of_nat (List.length l) in
  let adjust i := if i <? 0 then Z.max 0 (i + n) else Z.min i n in
  let a := adjust start in
  let b := adjust stop in
  firstn (Z.to_nat (b - a)) (skipn (Z.to_nat a) l).

Section PySorted.
Context {A : Type} (key : A -> Z).

(** Place [x] in front of the first element whose key does not exceed
    its own. *)
Fixpoint insert_desc (x : A) (l : list A) : list A :=
  match l with
  | [] => [x]
  | y :: l' => if key x <? key y then y :: insert_desc x l' else x :: l
  end.

(** [sorted(l, key=key, reverse=True)] and [l.sort(key=key, reverse=True)]:
    descending by key, elements of equal key in their original order.
    Python's sort is stable, also under [reverse=True]; the result of a
    stable sort does not depend on the algorithm (see
    [stable_sort_unique]), so insertion from the right stands for it. *)
Definition py_sorted_reverse (l : list A) : list A :=
  fold_right insert_desc [] l.

(** [a] may stand before [b] in a list sorted in descending order. *)
Definition desc (a b : A) : Prop := key b <= key a.

(** The elements of key [k]. *)
Definition has_key (k : Z) (x : A) : bool := key x =? k.
End PySorted.

(* ------------------------------------------------------------------ *)
(** ** Exceptions, results and the logger *)

Inductive exn : Type :=
| OSError (msg : string)
| ValueError (msg : string)
| OverflowError (msg : string)
| ValidationError (model field : string)
| RequestValidationError (param : string)
| HTTPException (status_code : Z) (detail : string).

Inductive result (A : Type) : Type :=
| Ok (a : A)
| Raise (e : exn).
Arguments Ok {A} a.
Arguments Raise {A} e.

(** What the logger was told, in the order of the calls. *)
Inductive log_record : Type :=
| WarnFailedToProcess (file_path : string) (e : exn)
| InfoScanned (file_count : Z) (filter_msg : option string) (total_size_human : string)
| ErrorInvalidPath (what path : string)
| InfoAnalyzing (path : string)
| InfoGettingExtensions (path : string)
| InfoPaginating (path : string) (offset limit : Z).

Definition logger : Type := list log_record.

(** Computations that log and may raise. *)
Definition M (A : Type) : Type := logger -> result A * logger.

Definition ret {A : Type} (a : A) : M A := fun lg => (Ok a, lg).

Definition raise {A : Type} (e : exn) : M A := fun lg => (Raise e, lg).

Definition bind {A B : Type} (m : M A) (k : A -> M B) : M B :=
  fun lg =>
    match m lg with
    | (Ok a, lg') => k a lg'
    | (Raise e, lg') => (Raise e, lg')
    end.

Definition emit (r : log_record) : M unit := fun lg => (Ok tt, lg ++ [r]).

Definition lift {A : Type} (r : result A) : M A := fun lg => (r, lg).

Declare Scope m_scope.
Delimit Scope m_scope with M.
Notation "x <- m ;; k" := (bind m (fun x => k))
  (at level 61, m at next level, right associativity) : m_scope.
Notation "m ;;; k" := (bind m (fun _ => k))
  (at level 61, right associativity) : m_scope.

(** The same for pure validations. *)
Definition rbind {A B : Type} (r : result A) (k : A -> result B) : result B :=
  match r with
  | Ok a => k a
  | Raise e => Raise e
  end.

Declare Scope result_scope.
Delimit Scope result_scope with R.
Notation "x <~ r ;; k" := (rbind r (fun x => k))
  (at level 61, r at next level, right associativity) : result_scope.

Definition check (b : bool) (e : exn) : result unit :=
  if b then Ok tt else Raise e.

Fixpoint result_map {A B : Type} (f : A -> result B) (l : list A) : result (list B) :=
  match l with
  | [] => Ok []
  | x :: l' =>
      (y <~ f x ;; ys <~ result_map f l' ;; Ok (y :: ys))%R
  end.

(** [d[k] = v] on a dict kept in insertion order: an existing key keeps its
    place and takes the new value, a new key goes to the end. *)
Fixpoint dict_set {V : Type} (k : string) (v : V) (d : list (string * V)) : list (string * V) :=
  match d with
  | [] => [(k, v)]
  | (k', v') :: d' =>
      if String.eqb k' k then (k', v) :: d' else (k', v') :: dict_set k v d'
  end.

Fixpoint dict_get {V : Type} (k : string) (d : list (string * V)) : option V :=
  match d with
  | [] => None
  | (k', v') :: d' => if String.eqb k' k then Some v' else dict_get k d'
  end.

(* ------------------------------------------------------------------ *)
(** ** The pydantic models

    Each module is one [BaseModel]: the record is an instance, [new] is its
    construction with the validation the class declares ([Field] bounds,
    [str_strip_whitespace], field validators).  The computed fields are the
    functions after the record. *)

(** A [datetime] is kept as the instant it denotes, in seconds. *)
Definition datetime : Type := Z.

Module ExtensionStats.
Record t : Type := mk { count : Z; size : Z }.

Definition new (count size : Z) : result t :=
  (_ <~ check (1 <=? count) (ValidationError "ExtensionStats" "count") ;;
   _ <~ check (0 <=? size) (ValidationError "ExtensionStats" "size") ;;
   Ok (mk count size))%R.

Definition size_human (naturalsize : Z -> string) (self : t) : string :=
  naturalsize (size self).
End ExtensionStats.

Module FileEntry.
Record t : Type := mk {
  size : Z;
  path : string;
  name : string;
  extension : string;
  modified_time : datetime;
  created_time : datetime;
  accessed_time : datetime;
  is_symlink : bool;
  inode : Z;
  mode : Z;
  owner_uid : Z;
  group_gid : Z
}.

(** [validate_path] *)
Definition validate_path (v : string) : result string :=
  if negb (os_path_isabs v) then Raise (ValueError "Path must be absolute")
  else Ok v.

Definition new (size : Z) (path name extension : string)
    (modified_time created_time accessed_time : datetime) (is_symlink : bool)
    (inode mode owner_uid group_gid : Z) : result t :=
  (_ <~ check (0 <=? size) (ValidationError "FileEntry" "size") ;;
   let path := strip path in
   _ <~ check (1 <=? len_str path) (ValidationError "FileEntry" "path") ;;
   path <~ match validate_path path with
           | Ok v => Ok v
           | Raise _ => Raise (ValidationError "FileEntry" "path")
           end ;;
   let name := strip name in
   _ <~ check (1 <=? len_str name) (ValidationError "FileEntry" "name") ;;
   let extension := strip extension in
   _ <~ check (0 <=? inode) (ValidationError "FileEntry" "inode") ;;
   _ <~ check (0 <=? mode) (ValidationError "FileEntry" "mode") ;;
   _ <~ check (0 <=? owner_uid) (ValidationError "FileEntry" "owner_uid") ;;
   _ <~ check (0 <=? group_gid) (ValidationError "FileEntry" "group_gid") ;;
   Ok (mk size path name extension modified_time created_time accessed_time
          is_symlink inode mode owner_uid group_gid))%R.

Definition size_human (naturalsize : Z -> string) (self : t) : string :=
  naturalsize (size self).
End FileEntry.

Module Report.
Record t : Type := mk {
  file_count : Z;
  total_size : Z;
  extensions : list (string * ExtensionStats.t);
  largest_files : list FileEntry.t;
  all_files : list FileEntry.t
}.

(** [v[i].size < v[i + 1].size] *)
Definition out_of_order (v : list FileEntry.t) (i : nat) : bool :=
  match nth_error v i, nth_error v (S i) with
  | Some a, Some b => FileEntry.size a <? FileEntry.size b
  | _, _ => false
  end.

(** [validate_largest_files]: the loop over [range(len(v) - 1)] raises at
    the first index out of order. *)
Definition validate_largest_files (v : list FileEntry.t) : result (list FileEntry.t) :=
  if (1 <? List.length v)%nat then
    if existsb (out_of_order v) (seq 0 (List.length v - 1))
    then Raise (ValueError "largest_files must be sorted by size in descending order")
    else Ok v
  else Ok v.

(** The keys of [extensions] are [str] values validated under the model's
    [str_strip_whitespace]; the validated dict is filled key by key. *)
Definition validate_extensions (d : list (string * ExtensionStats.t))
  : list (string * ExtensionStats.t) :=
  fold_left (fun out kv => dict_set (strip (fst kv)) (snd kv) out) d [].

Definition new (file_count total_size : Z)
    (extensions : list (string * ExtensionStats.t))
    (largest_files all_files : list FileEntry.t) : result t :=
  (_ <~ check (0 <=? file_count) (ValidationError "Report" "file_count") ;;
   _ <~ check (0 <=? total_size) (ValidationError "Report" "total_size") ;;
   let extensions := validate_extensions extensions in
   _ <~ check (Z.of_nat (List.length largest_files) <=? 50)
          (ValidationError "Report" "largest_files") ;;
   largest_files <~ match validate_largest_files largest_files with
                    | Ok v => Ok v
                    | Raise _ => Raise (ValidationError "Report" "largest_files")
                    end ;;
   Ok (mk file_count total_size extensions largest_files all_files))%R.

Definition total_size_human (naturalsize : Z -> string) (self : t) : string :=
  naturalsize (total_size self).
End Report.

Module PaginatedFiles.
Record t : Type := mk {
  total : Z;
  limit : Z;
  offset : Z;
  results : list FileEntry.t
}.

Definition new (total limit offset : Z) (results : list FileEntry.t) : result t :=
  (_ <~ check (0 <=? total) (ValidationError "PaginatedFiles" "total") ;;
   _ <~ check ((1 <=? limit) && (limit <=? 100)) (ValidationError "PaginatedFiles" "limit") ;;
   _ <~ check (0 <=? offset) (ValidationError "PaginatedFiles" "offset") ;;
   Ok (mk total limit offset results))%R.

Definition has_next (self : t) : bool := offset self + limit self <? total self.

Definition has_previous (self : t) : bool := 0 <? offset self.
End PaginatedFiles.

Module ExtensionInfo.
Record t : Type := mk {
  extension : string;
  count : Z;
  size : Z;
  size_human : string
}.

Definition new (extension : string) (count size : Z) (size_human : string) : result t :=
  (_ <~ check (1 <=? count) (ValidationError "ExtensionInfo" "count") ;;
   _ <~ check (0 <=? size) (ValidationError "ExtensionInfo" "size") ;;
   Ok (mk extension count size size_human))%R.
End ExtensionInfo.

Module ExtensionListResponse.
Record t : Type := mk {
  path : string;
  total_files : Z;
  extensions : list ExtensionInfo.t
}.

Definition new (path : string) (total_files : Z) (extensions : list ExtensionInfo.t)
  : result t :=
  (let path := strip path in
   _ <~ check (1 <=? len_str path) (ValidationError "ExtensionListResponse" "path") ;;
   _ <~ check (0 <=? total_files) (ValidationError "ExtensionListResponse" "total_files") ;;
   Ok (mk path total_files extensions))%R.
End ExtensionListResponse.

(* ------------------------------------------------------------------ *)
(** ** The world outside the program *)

(** [os.stat_result]: sizes and identifiers are the unsigned quantities the
    system reports, the three times are seconds since the epoch. *)
Record stat_result : Type := {
  st_mode : N;
  st_ino : N;
  st_uid : N;
  st_gid : N;
  st_size : N;
  st_atime : Z;
  st_mtime : Z;
  st_ctime : Z
}.

(** The file system at the time of the request and the library functions
    whose answers depend on the platform.  [os_walk] is the sequence of
    triples [(dirpath, dirnames, filenames)] that [os.walk] yields;
    [os_stat] is [os.stat(path, follow_symlinks=False)], which raises for a
    file it cannot read; [datetime_fromtimestamp] raises for a time outside
    the years the platform can express. *)
Record OS : Type := {
  os_walk : string -> list (string * list string * list string);
  os_stat : string -> result stat_result;
  os_path_islink : string -> bool;
  os_path_abspath : string -> string;
  os_path_isdir : string -> bool;
  datetime_fromtimestamp : Z -> result datetime;
  naturalsize : Z -> string
}.

(* ------------------------------------------------------------------ *)
(** ** collect_file_stats *)

(** One value of the [defaultdict]: [{"count": 0, "size": 0}] at first. *)
Record ext_acc : Type := { acc_count : Z; acc_size : Z }.

(** [extensions[ext]["count"] += 1; extensions[ext]["size"] += size] *)
Fixpoint ext_add (ext : string) (size : Z) (d : list (string * ext_acc))
  : list (string * ext_acc) :=
  match d with
  | [] => [(ext, {| acc_count := 0 + 1; acc_size := 0 + size |})]
  | (k, v) :: d' =>
      if String.eqb k ext
      then (k, {| acc_count := acc_count v + 1; acc_size := acc_size v + size |}) :: d'
      else (k, v) :: ext_add ext size d'
  end.

(** The locals of [collect_file_stats] during the walk, with what the logger
    has been told so far. *)
Record scan_state : Type := {
  file_count : Z;
  total_size : Z;
  extensions : list (string * ext_acc);
  all_files : list FileEntry.t;
  log : logger
}.

Definition initial_state (lg : logger) : scan_state :=
  {| file_count := 0; total_size := 0; extensions := []; all_files := []; log := lg |}.

(** [extension_filter] as a condition: [None] and the empty string are
    false. *)
Definition truthy (extension_filter : option string) : bool :=
  match extension_filter with
  | None => false
  | Some s => negb (String.eqb s "")
  end.

(** The guard of the [continue]:
    [extension_filter and ext != extension_filter.lower()]. *)
Definition filtered_out (extension_filter : option string) (ext : string) : bool :=
  match extension_filter with
  | None => false
  | Some s => negb (String.eqb s "") && negb (String.eqb ext (lower s))
  end.

(** The call [FileEntry(size=..., ..., group_gid=stats.st_gid)] with its
    arguments evaluated. *)
Definition file_entry_of (os : OS) (file_path f ext : string) (stats : stat_result)
  : result FileEntry.t :=
  (mt <~ datetime_fromtimestamp os (st_mtime stats) ;;
   ct <~ datetime_fromtimestamp os (st_ctime stats) ;;
   at_ <~ datetime_fromtimestamp os (st_atime stats) ;;
   FileEntry.new (Z.of_N (st_size stats)) (os_path_abspath os file_path) f ext
     mt ct at_ (os_path_islink os file_path)
     (Z.of_N (st_ino stats)) (Z.of_N (st_mode stats))
     (Z.of_N (st_uid stats)) (Z.of_N (st_gid stats)))%R.

Definition warn (st : scan_state) (file_path : string) (e : exn) : scan_state :=
  {| file_count := file_count st; total_size := total_size st;
     extensions := extensions st; all_files := all_files st;
     log := log st ++ [WarnFailedToProcess file_path e] |}.

(** The body of the inner loop, lines 171 to 205: the [try] with its
    [except Exception]. *)
Definition process_file (os : OS) (extension_filter : option string)
    (dirpath f : string) (st : scan_state) : scan_state :=
  let file_path := os_path_join dirpath f in
  match os_stat os file_path with
  | Raise e => warn st file_path e
  | Ok stats =>
      let size := Z.of_N (st_size stats) in
      let ext := lower (snd (splitext f)) in
      if filtered_out extension_filter ext then st
      else
        let st1 :=
          {| file_count := file_count st + 1;
             total_size := total_size st + size;
             extensions := ext_add ext size (extensions st);
             all_files := all_files st;
             log := log st |} in
        match file_entry_of os file_path f ext stats with
        | Raise e => warn st1 file_path e
        | Ok file_entry =>
            {| file_count := file_count st1; total_size := total_size st1;
               extensions := extensions st1;
               all_files := all_files st1 ++ [file_entry];
               log := log st1 |}
        end
  end.

(** [for f in filenames] *)
Definition scan_dir (os : OS) (extension_filter : option string)
    (st : scan_state) (entry : string * list string * list string) : scan_state :=
  let '(dirpath, _, filenames) := entry in
  fold_left (fun st f => process_file os extension_filter dirpath f st) filenames st.

(** [for dirpath, _, filenames in os.walk(root_folder)] *)
Definition scan (os : OS) (extension_filter : option string)
    (walk : list (string * list string * list string)) (st : scan_state) : scan_state :=
  fold_left (scan_dir os extension_filter) walk st.

(** The dict comprehension building [ext_stats]. *)
Definition ext_stats_of (d : list (string * ext_acc))
  : result (list (string * ExtensionStats.t)) :=
  result_map
    (fun kv => (s <~ ExtensionStats.new (acc_count (snd kv)) (acc_size (snd kv)) ;;
                Ok (fst kv, s))%R) d.

Definition collect_file_stats (os : OS) (root_folder : string)
    (extension_filter : option string) : M Report.t :=
  fun lg =>
    let st := scan os extension_filter (os_walk os root_folder) (initial_state lg) in
    let all_files := py_sorted_reverse FileEntry.size (all_files st) in
    (ext_stats <- lift (ext_stats_of (extensions st)) ;;
     let filter_msg := if truthy extension_filter then extension_filter else None in
     emit (InfoScanned (file_count st) filter_msg (naturalsize os (total_size st))) ;;;
     lift (Report.new (file_count st) (total_size st) ext_stats
             (py_slice all_files 0 10) all_files))%M (log st).

(* ------------------------------------------------------------------ *)
(** ** The routes *)

Definition invalid_directory {A : Type} (what path : string) : M A :=
  (emit (ErrorInvalidPath what path) ;;;
   raise (HTTPException 400 "Invalid directory path"))%M.

(** [GET /analyze] *)
Definition analyze_directory (os : OS) (path : string) (extension : option string)
  : M Report.t :=
  if negb (os_path_isdir os path) then invalid_directory "path requested" path
  else (emit (InfoAnalyzing path) ;;; collect_file_stats os path extension)%M.

(** [GET /analyze/extensions] *)
Definition get_available_extensions (os : OS) (path : string)
  : M ExtensionListResponse.t :=
  if negb (os_path_isdir os path) then invalid_directory "path for extensions" path
  else
    (emit (InfoGettingExtensions path) ;;;
     report <- collect_file_stats os path None ;;
     let sorted_extensions :=
       py_sorted_reverse (fun x => ExtensionStats.count (snd x))
         (Report.extensions report) in
     extensions_info <-
       lift (result_map
               (fun x => ExtensionInfo.new (fst x)
                           (ExtensionStats.count (snd x))
                           (ExtensionStats.size (snd x))
                           (naturalsize os (ExtensionStats.size (snd x))))
               sorted_extensions) ;;
     lift (ExtensionListResponse.new path (Report.file_count report) extensions_info))%M.

(** Lines 419 to 421: the page cut out of a report. *)
Definition paginated_view (report : Report.t) (limit offset : Z)
  : result PaginatedFiles.t :=
  let total := Z.of_nat (List.length (Report.all_files report)) in
  let results := py_slice (Report.all_files report) offset (offset + limit) in
  PaginatedFiles.new total limit offset results.

(** [GET /analyze/files]; the bounds of [Query(10, ge=1, le=100)] and
    [Query(0, ge=0)] are checked before the body runs. *)
Definition get_paginated_files (os : OS) (path : string) (limit offset : Z)
    (extension : option string) : M PaginatedFiles.t :=
  if negb ((1 <=? limit) && (limit <=? 100)) then raise (RequestValidationError "limit")
  else if negb (0 <=? offset) then raise (RequestValidationError "offset")
  else if negb (os_path_isdir os path) then invalid_directory "path for pagination" path
  else
    (emit (InfoPaginating path offset limit) ;;;
     report <- collect_file_stats os path extension ;;
     lift (paginated_view report limit offset))%M.

(** A client reading every page: offsets [0], [limit], [2 * limit], ...
    until the offset reaches the total.  [None] when a page is refused or
    [fuel] requests were not enough. *)
Fixpoint read_all_pages (fuel : nat) (report : Report.t) (limit offset : Z)
  : option (list FileEntry.t) :=
  if Z.of_nat (List.length (Report.all_files report)) <=? offset then Some []
  else
    match fuel with
    | O => None
    | S fuel' =>
        match paginated_view report limit offset with
        | Raise _ => None
        | Ok page =>
            match read_all_pages fuel' report limit (offset + limit) with
            | None => None
            | Some rest => Some (PaginatedFiles.results page ++ rest)
            end
        end
    end.

(* ------------------------------------------------------------------ *)
(** ** Serving one file *)

(** A file opened with [open(file_path, 'rb')]: its bytes, and for each
    position the error, if any, that a read issued there raises. *)
Record binary_file : Type := {
  file_bytes : list Byte.byte;
  read_raises : nat -> option exn
}.

(** What the routes for one file need beside [OS]: [os.stat] following
    links, [os.path.realpath] (which may raise), [os.path.exists] and
    [os.path.isfile], [open], [mimetypes.guess_type], [datetime.isoformat]
    and [str] of an exception. *)
Record FileOS : Type := {
  base : OS;
  os_stat_follow : string -> result stat_result;
  os_path_realpath : string -> result string;
  os_path_exists : string -> bool;
  os_path_isfile : string -> bool;
  open_rb : string -> result binary_file;
  mimetypes_guess_type : string -> option string;
  isoformat : datetime -> string;
  exn_str : exn -> string
}.

(** [file.read(size)] at position [pos]: all that is left for a negative
    size, at most [size] bytes otherwise. *)
Definition file_read (f : binary_file) (pos : nat) (size : Z) : result (list Byte.byte) :=
  match read_raises f pos with
  | Some e => Raise e
  | None =>
      Ok (if size <? 0 then skipn pos (file_bytes f)
          else firstn (Z.to_nat size) (skipn pos (file_bytes f)))
  end.

(** What a consumer of the generator sees: the chunks it yields and, when
    it ends by raising, the exception. *)
Record streamed : Type := {
  chunks : list (list Byte.byte);
  failure : option exn
}.

Definition reading_failed (fs : FileOS) (e : exn) : exn :=
  HTTPException 500 ("Error reading file: " ++ exn_str fs e)%string.

(** [while chunk := file.read(chunk_size): yield chunk] from position
    [pos]; [None] when [fuel] chunks were not enough. *)
Fixpoint read_chunks (fuel : nat) (fs : FileOS) (f : binary_file) (chunk_size : Z)
    (pos : nat) : option streamed :=
  match file_read f pos chunk_size with
  | Raise e => Some {| chunks := []; failure := Some (reading_failed fs e) |}
  | Ok [] => Some {| chunks := []; failure := None |}
  | Ok chunk =>
      match fuel with
      | O => None
      | S fuel' =>
          match read_chunks fuel' fs f chunk_size (pos + List.length chunk) with
          | None => None
          | Some rest =>
              Some {| chunks := chunk :: chunks rest; failure := failure rest |}
          end
      end
  end.

(** [generate_file_chunks], run to its end; a chunk holds at least one
    byte, so as many rounds as the file has bytes are enough. *)
Definition generate_file_chunks (fs : FileOS) (file_path : string) (chunk_size : Z)
  : option streamed :=
  match open_rb fs file_path with
  | Raise e => Some {| chunks := []; failure := Some (reading_failed fs e) |}
  | Ok f => read_chunks (List.length (file_bytes f)) fs f chunk_size 0
  end.

(** [is_safe_path]: the [except] takes [OSError] and [ValueError] only. *)
Definition is_safe_path (fs : FileOS) (file_path : string) : result bool :=
  match os_path_realpath fs file_path with
  | Ok resolved_path =>
      Ok (os_path_exists fs resolved_path && os_path_isfile fs resolved_path)
  | Raise (OSError _) => Ok false
  | Raise (ValueError _) => Ok false
  | Raise e => Raise e
  end.

(** [get_content_type] *)
Definition get_content_type (fs : FileOS) (file_path : string) : string :=
  match mimetypes_guess_type fs file_path with
  | Some content_type =>
      if String.eqb content_type "" then "application/octet-stream" else content_type
  | None => "application/octet-stream"
  end.

(** [os.path.basename] (posixpath) *)
Definition os_path_basename (p : string) : string := str_from (rfind "/" p + 1) p.

(** [str(n)] for an integer that is not negative. *)
Definition str_of_N (n : N) : string := NilZero.string_of_uint (N.to_uint n).

(** The double quote. *)
Definition dquote : string := String (ascii_of_nat 34) EmptyString.

Inductive file_log_record : Type :=
| ErrorUnsafePath (file_path : string)
| InfoStreaming (file_path size_human : string)
| ErrorStreaming (file_path : string) (e : exn)
| InfoGettingInfo (file_path : string)
| ErrorGettingInfo (file_path : string) (e : exn).

(** [StreamingResponse(generate_file_chunks(file_path), media_type=...,
    headers=...)]; the body is the generator, here with what it yields. *)
Record StreamingResponse : Type := {
  body : option streamed;
  media_type : string;
  headers : list (string * string)
}.

(** [GET /stream]; with the result, what the call logs. *)
Definition stream_file (fs : FileOS) (file_path : string) (download : bool)
  : result StreamingResponse * list file_log_record :=
  match is_safe_path fs file_path with
  | Raise e => (Raise e, [])
  | Ok false =>
      (Raise (HTTPException 400 "Invalid file path or file does not exist"),
       [ErrorUnsafePath file_path])
  | Ok true =>
      match os_stat_follow fs file_path with
      | Raise e =>
          (Raise (HTTPException 500 ("Error streaming file: " ++ exn_str fs e)%string),
           [ErrorStreaming file_path e])
      | Ok file_stats =>
          let file_size := st_size file_stats in
          let filename := os_path_basename file_path in
          let content_type := get_content_type fs file_path in
          let headers :=
            [("Content-Length", str_of_N file_size); ("Accept-Ranges", "bytes")] in
          let disposition := if download then "attachment" else "inline" in
          let headers :=
            dict_set "Content-Disposition"
              (disposition ++ "; filename=" ++ dquote ++ filename ++ dquote)%string
              headers in
          (Ok {| body := generate_file_chunks fs file_path 8192;
                 media_type := content_type;
                 headers := headers |},
           [InfoStreaming file_path (naturalsize (base fs) (Z.of_N file_size))])
      end
  end.

Module FileInfoResponse.
Record t : Type := mk {
  path : string;
  name : string;
  extension : string;
  size : Z;
  size_human : string;
  content_type : string;
  modified_time : string;
  created_time : string;
  accessed_time : string;
  is_symlink : bool;
  inode : Z;
  mode : Z;
  owner_uid : Z;
  group_gid : Z;
  stream_url : string;
  download_url : string
}.

Definition new (path name extension : string) (size : Z)
    (size_human content_type modified_time created_time accessed_time : string)
    (is_symlink : bool) (inode mode owner_uid group_gid : Z)
    (stream_url download_url : string) : result t :=
  (let path := strip path in
   _ <~ check (1 <=? len_str path) (ValidationError "FileInfoResponse" "path") ;;
   let name := strip name in
   _ <~ check (1 <=? len_str name) (ValidationError "FileInfoResponse" "name") ;;
   _ <~ check (0 <=? size) (ValidationError "FileInfoResponse" "size") ;;
   _ <~ check (0 <=? inode) (ValidationError "FileInfoResponse" "inode") ;;
   _ <~ check (0 <=? mode) (ValidationError "FileInfoResponse" "mode") ;;
   _ <~ check (0 <=? owner_uid) (ValidationError "FileInfoResponse" "owner_uid") ;;
   _ <~ check (0 <=? group_gid) (ValidationError "FileInfoResponse" "group_gid") ;;
   Ok (mk path name (strip extension) size (strip size_human) (strip content_type)
          (strip modified_time) (strip created_time) (strip accessed_time)
          is_symlink inode mode owner_uid group_gid
          (strip stream_url) (strip download_url)))%R.
End FileInfoResponse.

(** The body of the [try] of [get_file_info], after the log line. *)
Definition file_info_of (fs : FileOS) (file_path : string) (stats : stat_result)
  : result FileInfoResponse.t :=
  let os := base fs in
  let filename := os_path_basename file_path in
  let ext := lower (snd (splitext filename)) in
  let content_type := get_content_type fs file_path in
  (mt <~ datetime_fromtimestamp os (st_mtime stats) ;;
   ct <~ datetime_fromtimestamp os (st_ctime stats) ;;
   at_ <~ datetime_fromtimestamp os (st_atime stats) ;;
   FileInfoResponse.new (os_path_abspath os file_path) filename ext
     (Z.of_N (st_size stats)) (naturalsize os (Z.of_N (st_size stats))) content_type
     (isoformat fs mt) (isoformat fs ct) (isoformat fs at_)
     (os_path_islink os file_path)
     (Z.of_N (st_ino stats)) (Z.of_N (st_mode stats))
     (Z.of_N (st_uid stats)) (Z.of_N (st_gid stats))
     ("/stream?file_path=" ++ file_path)%string
     ("/stream?file_path=" ++ file_path ++ "&download=true")%string)%R.

Definition info_failed (fs : FileOS) (e : exn) : exn :=
  HTTPException 500 ("Error getting file info: " ++ exn_str fs e)%string.

(** [GET /file-info]; with the result, what the call logs. *)
Definition get_file_info (fs : FileOS) (file_path : string)
  : result FileInfoResponse.t * list file_log_record :=
  match is_safe_path fs file_path with
  | Raise e => (Raise e, [])
  | Ok false =>
      (Raise (HTTPException 400 "Invalid file path or file does not exist"),
       [ErrorUnsafePath file_path])
  | Ok true =>
      match os_stat (base fs) file_path with
      | Raise e => (Raise (info_failed fs e), [ErrorGettingInfo file_path e])
      | Ok stats =>
          match file_info_of fs file_path stats with
          | Raise e =>
              (Raise (info_failed fs e),
               [InfoGettingInfo file_path; ErrorGettingInfo file_path e])
          | Ok response => (Ok response, [InfoGettingInfo file_path])
          end
      end
  end.

(* ------------------------------------------------------------------ *)
(** * The vocabulary of the properties *)

(** Some record of [v] is directly followed by a larger one. *)
Definition adjacent_inversion (v : list FileEntry.t) : Prop :=
  exists i a b, nth_error v i = Some a /\ nth_error v (S i) = Some b
                /\ FileEntry.size a < FileEntry.size b.

(** What the validation of [largest_files] refuses: a record directly
    followed by a larger one, or more than 50 records. *)
Definition report_rejected (largest_files : list FileEntry.t) : Prop :=
  adjacent_inversion largest_files \/ (50 < List.length largest_files)%nat.

(** An accumulator that [ExtensionStats] accepts. *)
Definition acc_ok (kv : string * ext_acc) : Prop :=
  1 <= acc_count (snd kv) /\ 0 <= acc_size (snd kv).

(** The counters of the walk are in the ranges the models ask for. *)
Definition state_ok (st : scan_state) : Prop :=
  0 <= file_count st /\ 0 <= total_size st /\ Forall acc_ok (extensions st).

(** An accumulator as the [ExtensionStats] of [ext_stats]. *)
Definition stats_of_acc (kv : string * ext_acc) : string * ExtensionStats.t :=
  (fst kv, ExtensionStats.mk (acc_count (snd kv)) (acc_size (snd kv))).

(** The report that [collect_file_stats] builds from the state the walk
    ends in. *)
Definition report_of_state (st : scan_state) : Report.t :=
  let sorted := py_sorted_reverse FileEntry.size (all_files st) in
  Report.mk (file_count st) (total_size st)
    (Report.validate_extensions (map stats_of_acc (extensions st)))
    (firstn 10 sorted) sorted.

(** The locals of [collect_file_stats] when the walk is over. *)
Definition final_state (os : OS) (root_folder : string) (F : option string)
    (lg : logger) : scan_state :=
  scan os F (os_walk os root_folder) (initial_state lg).

(** The files in the order in which the two loops visit them, each with the
    directory it was listed in. *)
Definition walk_files (walk : list (string * list string * list string))
  : list (string * string) :=
  flat_map (fun entry => map (pair (fst (fst entry))) (snd entry)) walk.

(** [os.path.splitext(f)[1].lower()] *)
Definition file_extension (f : string) : string := lower (snd (splitext f)).

(** The record of a file, when its [os.stat] and the construction of its
    [FileEntry] both succeed. *)
Definition entry_of_file (os : OS) (df : string * string) : list FileEntry.t :=
  let file_path := os_path_join (fst df) (snd df) in
  match os_stat os file_path with
  | Ok stats =>
      match file_entry_of os file_path (snd df) (file_extension (snd df)) stats with
      | Ok file_entry => [file_entry]
      | Raise _ => []
      end
  | Raise _ => []
  end.

(** What a file adds to the counters: its extension and size, when its
    [os.stat] succeeds. *)
Definition stat_of_file (os : OS) (df : string * string) : list (string * Z) :=
  match os_stat os (os_path_join (fst df) (snd df)) with
  | Ok stats => [(file_extension (snd df), Z.of_N (st_size stats))]
  | Raise _ => []
  end.

(** [process_file] on a file paired with its directory. *)
Definition process_walk_file (os : OS) (F : option string) (st : scan_state)
    (df : string * string) : scan_state :=
  process_file os F (fst df) (snd df) st.

(** The file passes the filter: the [continue] is not taken. *)
Definition kept (F : option string) (df : string * string) : bool :=
  negb (filtered_out F (file_extension (snd df))).

(** The extension in the words of the claim: the lowercased suffix of the
    base name from its last dot (nothing when it has no dot). *)
Definition spec_extension (name : string) : string :=
  let i := rfind "." name in
  if i <? 0 then "" else lower (str_from i name).

(** Every character in front of the last dot of [f] is a dot (so also: [f]
    has no dot, or starts with its only one). *)
Definition only_dots_before_last_dot (f : string) : Prop :=
  forall j : nat, (j < Z.to_nat (rfind "." f))%nat -> String.get j f = Some "."%char.

(** [sum(l)] *)
Definition sum_Z (l : list Z) : Z := fold_right Z.add 0 l.

(** The files that reach the counters: those the filter keeps and
    [os.stat] can read, each as its extension and size. *)
Definition counted_files (os : OS) (F : option string)
    (walk : list (string * list string * list string)) : list (string * Z) :=
  flat_map (stat_of_file os) (filter (kept F) (walk_files walk)).

(** The accumulators after the counted files [counted], in their order. *)
Definition ext_add_all (counted : list (string * Z)) (d : list (string * ext_acc))
  : list (string * ext_acc) :=
  fold_left (fun d es => ext_add (fst es) (snd es) d) counted d.

(** Every file the filter keeps and [os.stat] reads gets its record. *)
Definition records_built (os : OS) (files : list (string * string)) : Prop :=
  forall df, In df files -> stat_of_file os df <> [] -> entry_of_file os df <> [].

(** The counted file has extension [k]. *)
Definition with_ext (k : string) (es : string * Z) : bool := String.eqb (fst es) k.

(** The accumulator [v] (a fresh one for [None]) with [n] files of [s] bytes
    in all added. *)
Definition acc_plus (v : option ext_acc) (n s : Z) : ext_acc :=
  match v with
  | Some v => {| acc_count := acc_count v + n; acc_size := acc_size v + s |}
  | None => {| acc_count := 0 + n; acc_size := 0 + s |}
  end.

(** The extension and the size of a record. *)
Definition ext_size_of (e : FileEntry.t) : string * Z :=
  (FileEntry.extension e, FileEntry.size e).

(** [p[n:]] *)
Fixpoint str_drop (n : nat) (p : string) : string :=
  match n, p with
  | O, _ => p
  | S n', EmptyString => EmptyString
  | S n', String _ p' => str_drop n' p'
  end.

(** [FileEntry.model_validate(e.model_dump())]: the record validated again
    from its own fields. *)
Definition revalidate (e : FileEntry.t) : result FileEntry.t :=
  FileEntry.new (FileEntry.size e) (FileEntry.path e) (FileEntry.name e)
    (FileEntry.extension e) (FileEntry.modified_time e) (FileEntry.created_time e)
    (FileEntry.accessed_time e) (FileEntry.is_symlink e) (FileEntry.inode e)
    (FileEntry.mode e) (FileEntry.owner_uid e) (FileEntry.group_gid e).

(** What holds of every record in a report. *)
Definition entry_valid (e : FileEntry.t) : Prop :=
  revalidate e = Ok e
  /\ lower (FileEntry.extension e) = FileEntry.extension e
  /\ (FileEntry.extension e = ""
      \/ exists rest, FileEntry.extension e = String "." rest).

(** No extension of these files ends in white space. *)
Definition extensions_stripped (files : list (string * string)) : Prop :=
  forall df, In df files -> strip (file_extension (snd df)) = file_extension (snd df).

(** The counts of the entries of [extensions], added up. *)
Definition sum_counts (d : list (string * ExtensionStats.t)) : Z :=
  sum_Z (map (fun kv => ExtensionStats.count (snd kv)) d).

(** The sizes of the entries of [extensions], added up. *)
Definition sum_sizes (d : list (string * ExtensionStats.t)) : Z :=
  sum_Z (map (fun kv => ExtensionStats.size (snd kv)) d).

(** The same system with the walk yielding [walk] for every root. *)
Definition with_walk (os : OS) (walk : list (string * list string * list string)) : OS :=
  {| os_walk := fun _ => walk;
     os_stat := os_stat os;
     os_path_islink := os_path_islink os;
     os_path_abspath := os_path_abspath os;
     os_path_isdir := os_path_isdir os;
     datetime_fromtimestamp := datetime_fromtimestamp os;
     naturalsize := naturalsize os |}.

(** The warning a file leaves in the log: one when its [os.stat] raises,
    one when it passes the filter and its record cannot be built, none
    otherwise. *)
Definition warning_of_file (os : OS) (F : option string) (df : string * string)
  : list log_record :=
  let file_path := os_path_join (fst df) (snd df) in
  match os_stat os file_path with
  | Raise e => [WarnFailedToProcess file_path e]
  | Ok stats =>
      if filtered_out F (file_extension (snd df)) then []
      else match file_entry_of os file_path (snd df) (file_extension (snd df)) stats with
           | Raise e => [WarnFailedToProcess file_path e]
           | Ok _ => []
           end
  end.


(** A line [Failed to process ...]. *)
Definition is_warning (r : log_record) : Prop :=
  exists file_path e, r = WarnFailedToProcess file_path e.

(** The [ExtensionInfo] of an entry of [extensions]. *)
Definition info_of (os : OS) (x : string * ExtensionStats.t) : ExtensionInfo.t :=
  ExtensionInfo.mk (fst x) (ExtensionStats.count (snd x)) (ExtensionStats.size (snd x))
    (naturalsize os (ExtensionStats.size (snd x))).

(** An entry that [ExtensionStats] and [ExtensionInfo] accept. *)
Definition stats_ok (kv : string * ExtensionStats.t) : Prop :=
  1 <= ExtensionStats.count (snd kv) /\ 0 <= ExtensionStats.size (snd kv).


(** All chunks but the last hold [n] bytes. *)
Definition full_but_last (n : nat) (cs : list (list Byte.byte)) : Prop :=
  forall i c, nth_error cs i = Some c -> (S i < List.length cs)%nat -> List.length c = n.

(** [int(s)] for a string of decimal digits. *)
Definition N_of_str (s : string) : option N :=
  option_map N.of_uint (NilZero.uint_of_string s).

(** The route lets out nothing but its own HTTP errors. *)
Definition only_http_errors {A : Type} (r : result A) : Prop :=
  match r with
  | Ok _ => True
  | Raise (HTTPException status_code _) => status_code = 400 \/ status_code = 500
  | Raise _ => False
  end.

(** ** Concrete directories *)

(** What [os.stat] reports for a regular file of [size] bytes. *)
Definition plain_stat (size : N) : stat_result :=
  {| st_mode := 33188; st_ino := 7; st_uid := 1000; st_gid := 1000;
     st_size := size; st_atime := 0; st_mtime := 0; st_ctime := 0 |}.

(** [os.stat] in a directory that holds [files]. *)
Fixpoint stat_in (dir : string) (files : list (string * N)) (p : string)
  : result stat_result :=
  match files with
  | [] => Raise (OSError "No such file or directory")
  | (f, size) :: files' =>
      if String.eqb p (os_path_join dir f) then Ok (plain_stat size)
      else stat_in dir files' p
  end.

(** A directory [dir] (an absolute path) with no subdirectory, holding the
    regular files [files], each with its size. *)
Definition flat_directory (dir : string) (files : list (string * N)) : OS :=
  {| os_walk := fun root => if String.eqb root dir then [(dir, [], map fst files)] else [];
     os_stat := stat_in dir files;
     os_path_islink := fun _ => false;
     os_path_abspath := fun p => p;
     os_path_isdir := String.eqb dir;
     datetime_fromtimestamp := fun t => Ok t;
     naturalsize := fun _ => "some bytes" |}.

(** The directory of the scenarios of the spec. *)
Definition scenario_os : OS :=
  flat_directory "/data" [("a.txt", 100%N); ("b.txt", 50%N); ("c.log", 200%N)].

(** A home directory with one hidden file. *)
Definition dotfile_os : OS := flat_directory "/home/u" [(".bashrc", 120%N)].

(** A directory with a file whose name is one space. *)
Definition blank_name_os : OS :=
  flat_directory "/srv/files" [("a.txt", 100%N); (" ", 5%N)].

(** The record of a file of [plain_stat]. *)
Definition entry (size : Z) (path name extension : string) : FileEntry.t :=
  FileEntry.mk size path name extension 0 0 0 false 7 33188 1000 1000.

(** The report of the first scenario. *)
Definition scenario_report : Report.t :=
  Report.mk 3 350
    [(".txt", ExtensionStats.mk 2 150); (".log", ExtensionStats.mk 1 200)]
    [entry 200 "/data/c.log" "c.log" ".log"; entry 100 "/data/a.txt" "a.txt" ".txt";
     entry 50 "/data/b.txt" "b.txt" ".txt"]
    [entry 200 "/data/c.log" "c.log" ".log"; entry 100 "/data/a.txt" "a.txt" ".txt";
     entry 50 "/data/b.txt" "b.txt" ".txt"].

(** The report on [blank_name_os]. *)
Definition blank_name_report : Report.t :=
  Report.mk 2 105
    [(".txt", ExtensionStats.mk 1 100); ("", ExtensionStats.mk 1 5)]
    [entry 100 "/srv/files/a.txt" "a.txt" ".txt"]
    [entry 100 "/srv/files/a.txt" "a.txt" ".txt"].

(** The answer of the extensions route on [scenario_os]. *)
Definition scenario_extensions : ExtensionListResponse.t :=
  ExtensionListResponse.mk "/data" 3
    [ExtensionInfo.mk ".txt" 2 150 "some bytes"; ExtensionInfo.mk ".log" 1 200 "some bytes"].

(** A walk that lists a file which is gone when it is read. *)
Definition vanished_os : OS :=
  {| os_walk := fun _ => [("/data", [], ["ghost.txt"])];
     os_stat := fun _ => Raise (OSError "No such file or directory");
     os_path_islink := fun _ => false;
     os_path_abspath := fun p => p;
     os_path_isdir := String.eqb "/data";
     datetime_fromtimestamp := fun t => Ok t;
     naturalsize := fun _ => "some bytes" |}.

(** The five bytes of [hello]. *)
Definition hello_bytes : list Byte.byte :=
  [Byte.x68; Byte.x65; Byte.x6c; Byte.x6c; Byte.x6f].

(** A directory [/srv] with the one file [hello.txt], five bytes long, that
    opens and reads without error. *)
Definition hello_fs : FileOS :=
  {| base := flat_directory "/srv" [("hello.txt", 5%N)];
     os_stat_follow := stat_in "/srv" [("hello.txt", 5%N)];
     os_path_realpath := fun p => Ok p;
     os_path_exists := String.eqb "/srv/hello.txt";
     os_path_isfile := String.eqb "/srv/hello.txt";
     open_rb := fun p =>
       if String.eqb p "/srv/hello.txt"
       then Ok {| file_bytes := hello_bytes; read_raises := fun _ => None |}
       else Raise (OSError "No such file or directory");
     mimetypes_guess_type := fun p =>
       if String.eqb p "/srv/hello.txt" then Some "text/plain" else None;
     isoformat := fun _ => "1970-01-01T00:00:00";
     exn_str := fun e => match e with OSError msg => msg | _ => "" end |}.

(** [hello.txt], opened. *)
Definition hello_file : binary_file :=
  {| file_bytes := hello_bytes; read_raises := fun _ => None |}.

(** What [/stream] answers for [hello.txt] with [download] set. *)
Definition hello_response : StreamingResponse :=
  {| body := generate_file_chunks hello_fs "/srv/hello.txt" 8192;
     media_type := "text/plain";
     headers :=
       [("Content-Length", "5"); ("Accept-Ranges", "bytes");
        ("Content-Disposition",
         ("attachment; filename=" ++ dquote ++ "hello.txt" ++ dquote)%string)] |}.

(** What [/file-info] answers for [hello.txt]. *)
Definition hello_info : FileInfoResponse.t :=
  FileInfoResponse.mk "/srv/hello.txt" "hello.txt" ".txt" 5 "some bytes" "text/plain"
    "1970-01-01T00:00:00" "1970-01-01T00:00:00" "1970-01-01T00:00:00"
    false 7 33188 1000 1000
    "/stream?file_path=/srv/hello.txt" "/stream?file_path=/srv/hello.txt&download=true".

(** The walk of the scenarios with the first two files in the other order. *)
Definition scenario_walk_swapped : list (string * list string * list string) :=
  [("/data", [], ["b.txt"; "a.txt"; "c.log"])].

(* ------------------------------------------------------------------ *)
(** * Properties *)


(** ** The descending stable sort *)

Section PySortedFacts.
Context {A : Type} (key : A -> Z).

Lemma insert_desc_perm (x : A) (l : list A) :
  Permutation (x :: l) (insert_desc key x l).
Proof.
  induction l as [|y l IH]; simpl.
  - apply Permutation_refl.
  - destruct (key x <? key y).
    + eapply perm_trans; [apply perm_swap|]. now apply perm_skip.
    + apply Permutation_refl.
Qed.

Lemma py_sorted_reverse_perm (l : list A) :
  Permutation l (py_sorted_reverse key l).
Proof.
  induction l as [|x l IH]; simpl.
  - constructor.
  - eapply perm_trans; [apply perm_skip, IH|]. apply insert_desc_perm.
Qed.

Lemma py_sorted_reverse_length (l : list A) :
  List.length (py_sorted_reverse key l) = List.length l.
Proof. symmetry. apply Permutation_length, py_sorted_reverse_perm. Qed.

Lemma insert_desc_sorted (x : A) (l : list A) :
  StronglySorted (desc key) l -> StronglySorted (desc key) (insert_desc key x l).
Proof.
  induction l as [|y l IH]; simpl; intros Hs.
  - repeat constructor.
  - inversion Hs as [|? ? Hl Hy]; subst.
    destruct (key x <? key y) eqn:E.
    + apply Z.ltb_lt in E. constructor; [now apply IH|].
      eapply Permutation_Forall; [apply insert_desc_perm|].
      constructor; [unfold desc; lia | assumption].
    + apply Z.ltb_ge in E. constructor; [assumption|].
      constructor; [exact E|].
      eapply Forall_impl; [|exact Hy]. unfold desc. intros; lia.
Qed.

Lemma py_sorted_reverse_sorted (l : list A) :
  StronglySorted (desc key) (py_sorted_reverse key l).
Proof.
  induction l as [|x l IH]; simpl.
  - constructor.
  - now apply insert_desc_sorted.
Qed.

Lemma insert_desc_filter (k : Z) (x : A) (l : list A) :
  filter (has_key key k) (insert_desc key x l) = filter (has_key key k) (x :: l).
Proof.
  induction l as [|y l IH]; [reflexivity|].
  simpl insert_desc. destruct (key x <? key y) eqn:E; [|reflexivity].
  apply Z.ltb_lt in E. simpl in *. rewrite IH. unfold has_key.
  destruct (key x =? k) eqn:Ex, (key y =? k) eqn:Ey; try reflexivity.
  apply Z.eqb_eq in Ex, Ey. lia.
Qed.

(** Elements of one key come out in the order they went in. *)
Lemma py_sorted_reverse_stable (k : Z) (l : list A) :
  filter (has_key key k) (py_sorted_reverse key l) = filter (has_key key k) l.
Proof.
  induction l as [|x l IH]; [reflexivity|].
  simpl py_sorted_reverse. rewrite insert_desc_filter. simpl. now rewrite IH.
Qed.

Lemma filter_has_key_head (x : A) (l : list A) :
  filter (has_key key (key x)) (x :: l) = x :: filter (has_key key (key x)) l.
Proof. simpl. unfold has_key at 1. now rewrite Z.eqb_refl. Qed.

Lemma filter_head_in (k : Z) (x : A) (l l' : list A) :
  filter (has_key key k) l = x :: l' -> In x l /\ key x = k.
Proof.
  intros H. assert (Hin : In x (filter (has_key key k) l)) by (rewrite H; now left).
  apply filter_In in Hin. destruct Hin as [Hin Hk]. split; [assumption|].
  now apply Z.eqb_eq in Hk.
Qed.

Lemma sorted_head_max (a b : A) (l1 l2 : list A) :
  Forall (desc key b) l2 ->
  filter (has_key key (key a)) (a :: l1) = filter (has_key key (key a)) (b :: l2) ->
  key a <= key b.
Proof.
  intros Hb E. rewrite filter_has_key_head in E. symmetry in E.
  apply filter_head_in in E. destruct E as [[->|Hin] _]; [lia|].
  rewrite Forall_forall in Hb. now apply Hb.
Qed.

(** Two descending lists holding, for every key, the same elements in the
    same order are equal: what a stable descending sort returns is fixed
    by its input. *)
Lemma stable_sort_unique (l1 l2 : list A) :
  StronglySorted (desc key) l1 -> StronglySorted (desc key) l2 ->
  (forall k, filter (has_key key k) l1 = filter (has_key key k) l2) ->
  l1 = l2.
Proof.
  revert l2. induction l1 as [|a l1 IH]; intros l2 H1 H2 Hf.
  - destruct l2 as [|b l2]; [reflexivity|].
    specialize (Hf (key b)). rewrite filter_has_key_head in Hf. discriminate.
  - destruct l2 as [|b l2].
    + specialize (Hf (key a)). rewrite filter_has_key_head in Hf. discriminate.
    + inversion H1 as [|? ? H1l H1a]; subst.
      inversion H2 as [|? ? H2l H2b]; subst.
      assert (Hab : key a <= key b) by (eapply sorted_head_max; eauto).
      assert (Hba : key b <= key a)
        by (eapply sorted_head_max; [exact H1a | symmetry; apply Hf]).
      assert (Hk : key b = key a) by lia.
      assert (Heq : a = b).
      { pose proof (Hf (key a)) as E. rewrite filter_has_key_head in E.
        rewrite <- Hk in E at 2. rewrite filter_has_key_head in E.
        now injection E. }
      subst b. f_equal. apply IH; try assumption.
      intros k. specialize (Hf k). simpl in Hf.
      destruct (has_key key k a); [now injection Hf | assumption].
Qed.

(** Any other stable descending sort agrees with [py_sorted_reverse]. *)
Lemma py_sorted_reverse_unique (l l' : list A) :
  StronglySorted (desc key) l' ->
  (forall k, filter (has_key key k) l' = filter (has_key key k) l) ->
  l' = py_sorted_reverse key l.
Proof.
  intros Hs Hf. apply stable_sort_unique; try assumption.
  - apply py_sorted_reverse_sorted.
  - intros k. now rewrite py_sorted_reverse_stable.
Qed.

Lemma py_sorted_reverse_idempotent (l : list A) :
  py_sorted_reverse key (py_sorted_reverse key l) = py_sorted_reverse key l.
Proof.
  symmetry. apply py_sorted_reverse_unique.
  - apply py_sorted_reverse_sorted.
  - reflexivity.
Qed.
End PySortedFacts.

(** ** Slices *)

Lemma py_slice_from_zero {A : Type} (l : list A) (n : Z) :
  0 <= n -> py_slice l 0 n = firstn (Z.to_nat n) l.
Proof.
  intros Hn. unfold py_slice.
  replace (0 <? 0) with false by reflexivity.
  destruct (n <? 0) eqn:E; [apply Z.ltb_lt in E; lia|].
  rewrite (Z.min_l 0) by lia. simpl skipn.
  destruct (Z.min_spec n (Z.of_nat (List.length l))) as [[_ ->]|[Hle ->]].
  - now rewrite Z.sub_0_r.
  - rewrite Z.sub_0_r, Nat2Z.id, firstn_all.
    symmetry. apply firstn_all2. lia.
Qed.

(** For bounds that are not negative the slice drops [start] elements and
    keeps the next [stop - start]. *)
Lemma py_slice_nonneg {A : Type} (l : list A) (start stop : Z) :
  0 <= start -> 0 <= stop ->
  py_slice l start stop = firstn (Z.to_nat (stop - start)) (skipn (Z.to_nat start) l).
Proof.
  intros Ha Hb. unfold py_slice.
  destruct (start <? 0) eqn:Ea; [apply Z.ltb_lt in Ea; lia|].
  destruct (stop <? 0) eqn:Eb; [apply Z.ltb_lt in Eb; lia|].
  set (n := Z.of_nat (List.length l)).
  destruct (Z.min_spec start n) as [[Hs ->]|[Hs ->]].
  - destruct (Z.min_spec stop n) as [[Ht ->]|[Ht ->]]; [reflexivity|].
    rewrite !firstn_all2; try reflexivity; rewrite length_skipn; lia.
  - rewrite !skipn_all2 by lia. now rewrite !firstn_nil.
Qed.

Lemma py_slice_length {A : Type} (l : list A) (start stop : Z) :
  0 <= start -> 0 <= stop ->
  Z.of_nat (List.length (py_slice l start stop))
  = Z.max 0 (Z.min (stop - start) (Z.of_nat (List.length l) - start)).
Proof.
  intros Ha Hb. rewrite py_slice_nonneg by assumption.
  rewrite length_firstn, length_skipn. lia.
Qed.

(** ** Sorted lists and the validator *)

Lemma StronglySorted_nth {A : Type} (R : A -> A -> Prop) (l : list A) :
  StronglySorted R l ->
  forall i j a b, (i < j)%nat ->
    nth_error l i = Some a -> nth_error l j = Some b -> R a b.
Proof.
  induction 1 as [|x l Hs IH Hx]; intros i j a b Hij Hi Hj.
  - destruct i; discriminate.
  - destruct j as [|j]; [lia|]. simpl in Hj. destruct i as [|i].
    + injection Hi as <-. rewrite Forall_forall in Hx.
      apply Hx. eapply nth_error_In; eauto.
    + simpl in Hi. apply (IH i j a b); [lia | assumption | assumption].
Qed.

Lemma in_firstn {A : Type} (n : nat) (l : list A) (x : A) :
  In x (firstn n l) -> In x l.
Proof.
  revert n. induction l as [|y l IH]; intros [|n] H; simpl in *; try contradiction.
  destruct H as [H|H]; [now left | right; eauto].
Qed.

Lemma StronglySorted_firstn {A : Type} (R : A -> A -> Prop) (n : nat) (l : list A) :
  StronglySorted R l -> StronglySorted R (firstn n l).
Proof.
  intros Hs. revert n. induction Hs as [|x l Hs IH Hx]; intros [|n]; simpl;
    try constructor.
  - apply IH.
  - rewrite Forall_forall in *. intros y Hy. apply Hx.
    eapply in_firstn; eauto.
Qed.

Lemma desc_trans {A : Type} (key : A -> Z) : Relations_1.Transitive (desc key).
Proof. unfold Relations_1.Transitive, desc. intros; lia. Qed.

Lemma out_of_order_true (v : list FileEntry.t) (i : nat) :
  Report.out_of_order v i = true <->
  exists a b, nth_error v i = Some a /\ nth_error v (S i) = Some b
              /\ FileEntry.size a < FileEntry.size b.
Proof.
  unfold Report.out_of_order. split.
  - destruct (nth_error v i) as [a|]; [|discriminate].
    destruct (nth_error v (S i)) as [b|]; [|discriminate].
    intros H. apply Z.ltb_lt in H. eauto.
  - intros (a & b & -> & -> & H). now apply Z.ltb_lt.
Qed.

Lemma sorted_no_inversion (v : list FileEntry.t) :
  StronglySorted (desc FileEntry.size) v -> ~ adjacent_inversion v.
Proof.
  intros Hs (i & a & b & Ha & Hb & Hlt).
  pose proof (StronglySorted_nth _ _ Hs i (S i) a b (Nat.lt_succ_diag_r i) Ha Hb) as H.
  unfold desc in H. lia.
Qed.

Lemma no_inversion_sorted (v : list FileEntry.t) :
  ~ adjacent_inversion v -> StronglySorted (desc FileEntry.size) v.
Proof.
  intros Hn. apply Sorted_StronglySorted; [apply desc_trans|].
  induction v as [|a v IH]; [constructor|].
  constructor.
  - apply IH. intros (i & x & y & Hx & Hy & Hlt). apply Hn.
    exists (S i), x, y. auto.
  - destruct v as [|b v]; constructor. unfold desc.
    destruct (Z.le_gt_cases (FileEntry.size b) (FileEntry.size a)) as [H|H];
      [assumption|].
    exfalso. apply Hn. exists 0%nat, a, b. simpl. repeat split; auto; lia.
Qed.

Lemma validate_largest_files_ok (v : list FileEntry.t) :
  ~ adjacent_inversion v -> Report.validate_largest_files v = Ok v.
Proof.
  intros Hn. unfold Report.validate_largest_files.
  destruct (1 <? List.length v)%nat; [|reflexivity].
  destruct (existsb _ _) eqn:E; [|reflexivity].
  apply existsb_exists in E. destruct E as (i & _ & Hi).
  apply out_of_order_true in Hi. destruct Hi as (a & b & H).
  exfalso. apply Hn. now exists i, a, b.
Qed.

Lemma validate_largest_files_raise (v : list FileEntry.t) :
  adjacent_inversion v -> exists e, Report.validate_largest_files v = Raise e.
Proof.
  intros (i & a & b & Ha & Hb & Hlt). unfold Report.validate_largest_files.
  assert (Hlen : (S i < List.length v)%nat)
    by (apply nth_error_Some; rewrite Hb; discriminate).
  destruct (1 <? List.length v)%nat eqn:E1; [|apply Nat.ltb_ge in E1; lia].
  replace (existsb _ _) with true; [eauto|].
  symmetry. apply existsb_exists. exists i. split.
  - apply in_seq. lia.
  - apply out_of_order_true. eauto.
Qed.

(** ** Construction of a report *)

Lemma report_new_ok (fc ts : Z) (ex : list (string * ExtensionStats.t))
    (lf af : list FileEntry.t) :
  0 <= fc -> 0 <= ts -> ~ report_rejected lf ->
  Report.new fc ts ex lf af
  = Ok (Report.mk fc ts (Report.validate_extensions ex) lf af).
Proof.
  intros Hfc Hts Hn. unfold Report.new, check, rbind.
  destruct (0 <=? fc) eqn:E1; [|apply Z.leb_gt in E1; lia].
  destruct (0 <=? ts) eqn:E2; [|apply Z.leb_gt in E2; lia].
  destruct (Z.of_nat (List.length lf) <=? 50) eqn:E3.
  - rewrite validate_largest_files_ok; [reflexivity|].
    intros H. apply Hn. now left.
  - apply Z.leb_gt in E3. exfalso. apply Hn. right. lia.
Qed.

Lemma report_new_raise (fc ts : Z) (ex : list (string * ExtensionStats.t))
    (lf af : list FileEntry.t) :
  report_rejected lf -> exists e, Report.new fc ts ex lf af = Raise e.
Proof.
  intros Hr. unfold Report.new, check, rbind.
  destruct (0 <=? fc); [|eauto].
  destruct (0 <=? ts); [|eauto].
  destruct (Z.of_nat (List.length lf) <=? 50) eqn:E3; [|eauto].
  apply Z.leb_le in E3. destruct Hr as [Hr|Hr]; [|lia].
  apply validate_largest_files_raise in Hr. destruct Hr as [e ->]. eauto.
Qed.

Lemma report_rejected_dec (lf : list FileEntry.t) :
  report_rejected lf \/ ~ report_rejected lf.
Proof.
  destruct (Report.validate_largest_files lf) as [v|e] eqn:E.
  - destruct (Nat.ltb_spec 50 (List.length lf)) as [H|H].
    + left. now right.
    + right. intros [Hi|Hl]; [|lia].
      apply validate_largest_files_raise in Hi. destruct Hi as [e' He'].
      congruence.
  - left. left. unfold Report.validate_largest_files in E.
    destruct (1 <? List.length lf)%nat; [|discriminate].
    destruct (existsb _ _) eqn:Ex; [|discriminate].
    apply existsb_exists in Ex. destruct Ex as (i & _ & Hi).
    apply out_of_order_true in Hi. destruct Hi as (a & b & H).
    now exists i, a, b.
Qed.

(** ** The walk keeps the counters valid, so the report is always built *)

Lemma ext_add_ok (ext : string) (size : Z) (d : list (string * ext_acc)) :
  0 <= size -> Forall acc_ok d -> Forall acc_ok (ext_add ext size d).
Proof.
  intros Hs. induction 1 as [|[k v] d [Hc Hz] Hd IH]; simpl.
  - repeat constructor; simpl; lia.
  - simpl in Hc, Hz. destruct (String.eqb k ext).
    + constructor; [split; simpl; lia | assumption].
    + constructor; [split; assumption | assumption].
Qed.

Lemma process_file_ok (os : OS) (F : option string) (dirpath f : string)
    (st : scan_state) :
  state_ok st -> state_ok (process_file os F dirpath f st).
Proof.
  intros (Hc & Hs & He). unfold process_file.
  destruct (os_stat os _) as [stats|e]; [|now repeat split].
  destruct (filtered_out F _); [now repeat split|].
  assert (Hst1 : 0 <= file_count st + 1 /\ 0 <= total_size st + Z.of_N (st_size stats)
                 /\ Forall acc_ok (ext_add (lower (snd (splitext f)))
                                     (Z.of_N (st_size stats)) (extensions st))).
  { repeat split; try lia. apply ext_add_ok; [lia | assumption]. }
  destruct (file_entry_of _ _ _ _ _); exact Hst1.
Qed.

Lemma scan_ok (os : OS) (F : option string)
    (walk : list (string * list string * list string)) (st : scan_state) :
  state_ok st -> state_ok (scan os F walk st).
Proof.
  unfold scan. revert st. induction walk as [|[[d ds] fs] walk IH]; intros st Hst.
  - exact Hst.
  - simpl. apply IH. clear IH. revert st Hst.
    induction fs as [|f fs IHf]; intros st Hst; simpl.
    + exact Hst.
    + apply IHf. now apply process_file_ok.
Qed.

Lemma ext_stats_of_ok (d : list (string * ext_acc)) :
  Forall acc_ok d -> ext_stats_of d = Ok (map stats_of_acc d).
Proof.
  unfold ext_stats_of. induction 1 as [|[k v] d [Hc Hz] Hd IH]; [reflexivity|].
  simpl in *. rewrite IH. unfold ExtensionStats.new, check, rbind.
  destruct (1 <=? acc_count v) eqn:E1; [|apply Z.leb_gt in E1; lia].
  destruct (0 <=? acc_size v) eqn:E2; [|apply Z.leb_gt in E2; lia].
  reflexivity.
Qed.

Lemma initial_state_ok (lg : logger) : state_ok (initial_state lg).
Proof. repeat split; simpl; try lia. constructor. Qed.

Lemma largest_files_accepted (l : list FileEntry.t) :
  ~ report_rejected (firstn 10 (py_sorted_reverse FileEntry.size l)).
Proof.
  intros [H|H].
  - revert H. apply sorted_no_inversion, StronglySorted_firstn,
      py_sorted_reverse_sorted.
  - rewrite length_firstn in H. lia.
Qed.

(** [collect_file_stats] returns, whatever the tree and the filter. *)
Lemma collect_file_stats_returns (os : OS) (root_folder : string)
    (F : option string) (lg : logger) :
  let st := final_state os root_folder F lg in
  collect_file_stats os root_folder F lg
  = (Ok (report_of_state st),
     log st ++ [InfoScanned (file_count st) (if truthy F then F else None)
                  (naturalsize os (total_size st))]).
Proof.
  intros st. unfold collect_file_stats. fold (final_state os root_folder F lg).
  fold st. destruct (scan_ok os F (os_walk os root_folder) _ (initial_state_ok lg))
    as (Hc & Hs & He). fold (final_state os root_folder F lg) in Hc, Hs, He.
  fold st in Hc, Hs, He.
  unfold bind, lift, emit. rewrite (ext_stats_of_ok _ He).
  rewrite py_slice_from_zero by lia.
  change (Z.to_nat 10) with 10%nat.
  rewrite report_new_ok; try assumption; [reflexivity|].
  apply largest_files_accepted.
Qed.

(** ** Sorting and the largest files *)

(** C2. Every report of [collect_file_stats] lists [all_files] in
    non-increasing order of size, the records of one size in the order in
    which the walk met them (the order of the inventory the walk built, of
    which [all_files] is a rearrangement), and [largest_files] is
    [all_files[:min(10, len(all_files))]]. *)
Theorem collect_file_stats_sorted_stable (os : OS) (root_folder : string)
    (F : option string) (lg : logger) :
  exists (report : Report.t) (lg' : logger),
    collect_file_stats os root_folder F lg = (Ok report, lg')
    /\ StronglySorted (desc FileEntry.size) (Report.all_files report)
    /\ Permutation (all_files (final_state os root_folder F lg))
         (Report.all_files report)
    /\ (forall size : Z,
          filter (has_key FileEntry.size size) (Report.all_files report)
          = filter (has_key FileEntry.size size)
              (all_files (final_state os root_folder F lg)))
    /\ Report.largest_files report
       = py_slice (Report.all_files report) 0
           (Z.min 10 (Z.of_nat (List.length (Report.all_files report))))
    /\ Report.largest_files report
       = firstn (Nat.min 10 (List.length (Report.all_files report)))
           (Report.all_files report).
Proof.
  eexists. eexists. split; [apply collect_file_stats_returns|].
  set (st := final_state os root_folder F lg).
  unfold report_of_state. cbn [Report.all_files Report.largest_files].
  set (sorted := py_sorted_reverse FileEntry.size (all_files st)).
  assert (Hmin : firstn 10 sorted = firstn (Nat.min 10 (List.length sorted)) sorted).
  { destruct (Nat.min_spec 10 (List.length sorted)) as [[_ ->]|[Hle ->]];
      [reflexivity|].
    rewrite firstn_all. now apply firstn_all2. }
  repeat split.
  - apply py_sorted_reverse_sorted.
  - apply py_sorted_reverse_perm.
  - intros size. apply py_sorted_reverse_stable.
  - rewrite py_slice_from_zero by lia. rewrite Hmin. f_equal. lia.
  - exact Hmin.
Qed.

(** ** Pages *)

Lemma paginated_view_ok (report : Report.t) (limit offset : Z) :
  1 <= limit <= 100 -> 0 <= offset ->
  paginated_view report limit offset
  = Ok (PaginatedFiles.mk (Z.of_nat (List.length (Report.all_files report)))
          limit offset
          (py_slice (Report.all_files report) offset (offset + limit))).
Proof.
  intros Hl Ho. unfold paginated_view, PaginatedFiles.new, check, rbind.
  set (total := Z.of_nat (List.length (Report.all_files report))).
  destruct (0 <=? total) eqn:E1; [|apply Z.leb_gt in E1; lia].
  destruct ((1 <=? limit) && (limit <=? 100)) eqn:E2;
    [|apply andb_false_iff in E2; destruct E2 as [E2|E2]; apply Z.leb_gt in E2; lia].
  destruct (0 <=? offset) eqn:E3; [|apply Z.leb_gt in E3; lia].
  reflexivity.
Qed.

(** C5. For a report with [total] records, a limit in [1,100] and an offset
    that is not negative, the page holds [all_files[offset : offset+limit]],
    that is [max(0, min(limit, total - offset))] records, [has_next] is
    [offset + limit < total] and [has_previous] is [offset > 0]. *)
Theorem paginated_view_window (report : Report.t) (limit offset : Z) :
  1 <= limit <= 100 -> 0 <= offset ->
  let total := Z.of_nat (List.length (Report.all_files report)) in
  exists page : PaginatedFiles.t,
    paginated_view report limit offset = Ok page
    /\ PaginatedFiles.total page = total
    /\ PaginatedFiles.results page
       = py_slice (Report.all_files report) offset (offset + limit)
    /\ Z.of_nat (List.length (PaginatedFiles.results page))
       = Z.max 0 (Z.min limit (total - offset))
    /\ PaginatedFiles.has_next page = (offset + limit <? total)
    /\ PaginatedFiles.has_previous page = (0 <? offset).
Proof.
  intros Hl Ho total. eexists. split; [now apply paginated_view_ok|].
  cbn [PaginatedFiles.total PaginatedFiles.results]. fold total.
  unfold PaginatedFiles.has_next, PaginatedFiles.has_previous.
  cbn [PaginatedFiles.total PaginatedFiles.offset PaginatedFiles.limit].
  repeat split.
  rewrite py_slice_length by lia. fold total. f_equal. f_equal. lia.
Qed.


Lemma read_all_pages_from (report : Report.t) (limit : Z) (fuel : nat) :
  1 <= limit <= 100 ->
  forall offset : Z, 0 <= offset ->
    Z.of_nat (List.length (Report.all_files report)) - offset <= Z.of_nat fuel ->
    read_all_pages fuel report limit offset
    = Some (skipn (Z.to_nat offset) (Report.all_files report)).
Proof.
  intros Hl. induction fuel as [|fuel IH]; intros offset Ho Hf.
  - simpl. destruct (_ <=? offset) eqn:E; [|apply Z.leb_gt in E; lia].
    apply Z.leb_le in E. now rewrite skipn_all2 by lia.
  - simpl. destruct (_ <=? offset) eqn:E.
    + apply Z.leb_le in E. now rewrite skipn_all2 by lia.
    + apply Z.leb_gt in E.
      rewrite (paginated_view_ok report limit offset Hl Ho).
      rewrite IH by lia. cbn [PaginatedFiles.results].
      rewrite py_slice_nonneg by lia.
      replace (offset + limit - offset) with limit by lia.
      replace (Z.to_nat (offset + limit)) with (Z.to_nat limit + Z.to_nat offset)%nat
        by lia.
      rewrite <- skipn_skipn. now rewrite firstn_skipn.
Qed.

(** C9. For a limit in [1,100], the pages at offsets [0], [limit],
    [2 * limit], ... up to the first offset that reaches the total, one
    after the other, are [all_files]; as many requests as there are records
    are enough. *)
Theorem read_all_pages_reconstructs (report : Report.t) (limit : Z) (fuel : nat) :
  1 <= limit <= 100 ->
  (List.length (Report.all_files report) <= fuel)%nat ->
  read_all_pages fuel report limit 0 = Some (Report.all_files report).
Proof.
  intros Hl Hf. rewrite read_all_pages_from by lia. reflexivity.
Qed.

(** ** Validation of a report *)

(** C6. With a count and a total size that are not negative, the
    construction of a report fails exactly when [largest_files] has a
    record directly followed by a larger one, or more than 50 records;
    otherwise it succeeds and the report holds the list as given. *)
Theorem report_construction_fails_iff (file_count total_size : Z)
    (extensions : list (string * ExtensionStats.t))
    (largest_files all_files : list FileEntry.t) :
  0 <= file_count -> 0 <= total_size ->
  ((exists e, Report.new file_count total_size extensions largest_files all_files
              = Raise e)
   <-> adjacent_inversion largest_files \/ (50 < List.length largest_files)%nat)
  /\ (~ (adjacent_inversion largest_files \/ (50 < List.length largest_files)%nat) ->
      exists report,
        Report.new file_count total_size extensions largest_files all_files
        = Ok report
        /\ Report.largest_files report = largest_files
        /\ Report.all_files report = all_files
        /\ Report.file_count report = file_count
        /\ Report.total_size report = total_size
        /\ Report.extensions report = Report.validate_extensions extensions).
Proof.
  intros Hfc Hts. split; [split|].
  - intros [e He]. destruct (report_rejected_dec largest_files) as [H|H];
      [exact H|].
    rewrite report_new_ok in He by assumption. discriminate.
  - apply report_new_raise.
  - intros Hn. eexists. split; [now apply report_new_ok|]. simpl. auto.
Qed.

(** ** The list of extensions *)

Lemma result_map_Forall2 {A B : Type} (f : A -> result B) (l : list A) (l' : list B) :
  result_map f l = Ok l' -> Forall2 (fun x y => f x = Ok y) l l'.
Proof.
  revert l'. induction l as [|x l IH]; simpl; intros l' H.
  - injection H as <-. constructor.
  - unfold rbind in H. destruct (f x) as [y|] eqn:Ex; [|discriminate].
    destruct (result_map f l) as [ys|]; [|discriminate].
    injection H as <-. constructor; auto.
Qed.

Lemma Forall2_sorted {A B : Type} (R : A -> B -> Prop) (ka : A -> Z) (kb : B -> Z)
    (l : list A) (l' : list B) :
  (forall x y, R x y -> kb y = ka x) ->
  Forall2 R l l' -> StronglySorted (desc ka) l -> StronglySorted (desc kb) l'.
Proof.
  intros Hk. induction 1 as [|x y l l' Hxy Hl IH]; intros Hs.
  - constructor.
  - inversion Hs as [|? ? Hsl Hx]; subst. constructor; [now apply IH|].
    clear IH Hs Hsl. induction Hl as [|x' y' l l' Hx'y' Hl IH]; constructor.
    + inversion Hx; subst. unfold desc in *.
      rewrite (Hk _ _ Hxy), (Hk _ _ Hx'y'). assumption.
    + apply IH. now inversion Hx.
Qed.

Lemma extension_info_count (x : string * ExtensionStats.t) (sh : string)
    (y : ExtensionInfo.t) :
  ExtensionInfo.new (fst x) (ExtensionStats.count (snd x))
    (ExtensionStats.size (snd x)) sh = Ok y ->
  ExtensionInfo.count y = ExtensionStats.count (snd x).
Proof.
  unfold ExtensionInfo.new, check, rbind.
  destruct (1 <=? _); [|discriminate]. destruct (0 <=? _); [|discriminate].
  now intros [= <-].
Qed.

(** C8. Every answer of the extensions route lists the extensions in
    non-increasing order of count, and its [total_files] is the
    [file_count] of the report of the scan the route ran (a scan with no
    filter). *)
Theorem get_available_extensions_sorted (os : OS) (path : string) (lg lg' : logger)
    (response : ExtensionListResponse.t) :
  get_available_extensions os path lg = (Ok response, lg') ->
  StronglySorted (desc ExtensionInfo.count) (ExtensionListResponse.extensions response)
  /\ exists (report : Report.t) (lg1 : logger),
       collect_file_stats os path None (lg ++ [InfoGettingExtensions path])
       = (Ok report, lg1)
       /\ ExtensionListResponse.total_files response = Report.file_count report.
Proof.
  unfold get_available_extensions.
  destruct (os_path_isdir os path); simpl; [|discriminate].
  unfold bind, emit, lift. rewrite collect_file_stats_returns.
  set (report := report_of_state _).
  set (sorted := py_sorted_reverse _ (Report.extensions report)).
  destruct (result_map _ sorted) as [infos|] eqn:Em; [|discriminate].
  unfold ExtensionListResponse.new, check, rbind.
  destruct (1 <=? _); [|discriminate]. destruct (0 <=? _); [|discriminate].
  intros [= <- <-]. simpl. split.
  - apply result_map_Forall2 in Em.
    eapply Forall2_sorted; [| exact Em | apply py_sorted_reverse_sorted].
    intros x y Hxy. simpl in Hxy. now apply extension_info_count in Hxy.
  - exists report. eexists. split; reflexivity.
Qed.

(** ** The empty filter *)

Lemma lower_empty (s : string) : lower s = "" -> s = "".
Proof. destruct s; [reflexivity | discriminate]. Qed.

(** A filter that lets the files without extension through is [None] or
    the empty string. *)
Lemma keeps_extensionless_falsy (F : option string) :
  filtered_out F "" = false -> F = None \/ F = Some "".
Proof.
  destruct F as [s|]; [|now left]. unfold filtered_out. intros H. right. f_equal.
  apply andb_false_iff in H. destruct H as [H|H]; apply negb_false_iff in H.
  - now apply String.eqb_eq in H.
  - apply String.eqb_eq in H. symmetry in H. now apply lower_empty.
Qed.

Lemma process_file_filter_ext (os : OS) (F G : option string) :
  (forall ext, filtered_out F ext = filtered_out G ext) ->
  forall dirpath f st, process_file os F dirpath f st = process_file os G dirpath f st.
Proof.
  intros H dirpath f st. unfold process_file.
  destruct (os_stat os _); [|reflexivity]. now rewrite H.
Qed.

Lemma scan_filter_ext (os : OS) (F G : option string) :
  (forall ext, filtered_out F ext = filtered_out G ext) ->
  forall walk st, scan os F walk st = scan os G walk st.
Proof.
  intros H walk. unfold scan. induction walk as [|[[d ds] fs] walk IH]; intros st.
  - reflexivity.
  - simpl. rewrite <- IH. f_equal. clear IH. revert st.
    induction fs as [|f fs IHf]; intros st; simpl; [reflexivity|].
    rewrite IHf. f_equal. now apply process_file_filter_ext.
Qed.

(** C10. The empty string as filter gives the report (and the log) of a
    call without filter; and a filter value under which the files without
    extension are kept gives that same report, so none keeps them alone. *)
Theorem empty_filter_is_no_filter (os : OS) (root_folder : string) (lg : logger) :
  collect_file_stats os root_folder (Some "") lg
  = collect_file_stats os root_folder None lg
  /\ (forall F : option string,
        filtered_out F "" = false ->
        (forall ext, filtered_out F ext = false)
        /\ collect_file_stats os root_folder F lg
           = collect_file_stats os root_folder None lg).
Proof.
  assert (H0 : collect_file_stats os root_folder (Some "") lg
               = collect_file_stats os root_folder None lg).
  { unfold collect_file_stats.
    rewrite (scan_filter_ext os (Some "") None) by reflexivity. reflexivity. }
  split; [exact H0|].
  intros F HF. destruct (keeps_extensionless_falsy F HF) as [->| ->].
  - split; reflexivity.
  - split; [reflexivity | exact H0].
Qed.

(** ** What the walk retains *)

Lemma scan_walk_files (os : OS) (F : option string)
    (walk : list (string * list string * list string)) (st : scan_state) :
  scan os F walk st = fold_left (process_walk_file os F) (walk_files walk) st.
Proof.
  unfold scan, walk_files. revert st.
  induction walk as [|[[d ds] fs] walk IH]; intros st; [reflexivity|].
  simpl. rewrite fold_left_app, <- IH. f_equal. clear IH. revert st.
  induction fs as [|f fs IHf]; intros st; simpl; [reflexivity|]. apply IHf.
Qed.

Lemma process_file_all_files (os : OS) (F : option string) (df : string * string)
    (st : scan_state) :
  all_files (process_walk_file os F st df)
  = all_files st ++ (if kept F df then entry_of_file os df else []).
Proof.
  unfold process_walk_file, process_file, entry_of_file, kept, file_extension.
  destruct (os_stat os _) as [stats|e]; simpl.
  - destruct (filtered_out F _); simpl; [now rewrite app_nil_r|].
    destruct (file_entry_of _ _ _ _ _); simpl; [reflexivity | now rewrite app_nil_r].
  - destruct (negb _); now rewrite app_nil_r.
Qed.

Lemma flat_map_filter {A B : Type} (p : A -> bool) (f : A -> list B) (l : list A) :
  flat_map (fun x => if p x then f x else []) l = flat_map f (filter p l).
Proof.
  induction l as [|x l IH]; [reflexivity|]. simpl.
  destruct (p x); simpl; now rewrite IH.
Qed.

(** The inventory at the end of the walk: the records of the files that
    pass the filter, in the order of the walk. *)
Lemma scan_all_files (os : OS) (F : option string)
    (walk : list (string * list string * list string)) (st : scan_state) :
  all_files (scan os F walk st)
  = all_files st ++ flat_map (entry_of_file os) (filter (kept F) (walk_files walk)).
Proof.
  rewrite scan_walk_files, <- flat_map_filter.
  generalize (walk_files walk) as files. intros files. revert st.
  induction files as [|df files IH]; intros st; simpl.
  - now rewrite app_nil_r.
  - rewrite IH, process_file_all_files. now rewrite <- app_assoc.
Qed.

Lemma splitext_loop_false (p : string) (n i : nat) :
  splitext_loop p i n = false <->
  (forall j, (i <= j < i + n)%nat -> String.get j p = Some "."%char).
Proof.
  revert i. induction n as [|n IH]; intros i; simpl.
  - split; [intros _ j Hj; lia | reflexivity].
  - destruct (String.get i p) as [c|] eqn:Ec.
    + destruct (Ascii.eqb_spec c "."%char) as [->|Hc].
      * rewrite IH. split; intros H j Hj.
        -- destruct (Nat.eq_dec j i) as [->|Hne]; [assumption | apply H; lia].
        -- apply H. lia.
      * split; [discriminate|]. intros H. specialize (H i ltac:(lia)).
        congruence.
    + split; [discriminate|]. intros H. specialize (H i ltac:(lia)). congruence.
Qed.

(** [os.path.splitext] against the words of the claim, for a base name:
    the two agree unless only dots stand before the last dot, and then the
    extension is empty. *)
Lemma file_extension_spec (f : string) :
  rfind "/" f = -1 ->
  (only_dots_before_last_dot f -> file_extension f = "")
  /\ (~ only_dots_before_last_dot f -> file_extension f = spec_extension f).
Proof.
  intros Hsep. unfold file_extension, splitext, spec_extension, only_dots_before_last_dot.
  rewrite Hsep. set (dotIndex := rfind "." f).
  destruct (-1 <? dotIndex) eqn:E.
  - apply Z.ltb_lt in E. change (-1 + 1) with 0. rewrite Z.sub_0_r.
    change (Z.to_nat 0) with 0%nat.
    destruct (splitext_loop f 0 (Z.to_nat dotIndex)) eqn:El.
    + split.
      * intros H. assert (splitext_loop f 0 (Z.to_nat dotIndex) = false)
          by (apply splitext_loop_false; intros j Hj; apply H; lia).
        congruence.
      * intros _. simpl. destruct (dotIndex <? 0) eqn:E0; [|reflexivity].
        apply Z.ltb_lt in E0. lia.
    + split; [reflexivity|]. intros H. exfalso. apply H. intros j Hj.
      eapply splitext_loop_false; [exact El | lia].
  - apply Z.ltb_ge in E. split; [reflexivity|].
    intros H. exfalso. apply H. intros j Hj. lia.
Qed.

Lemma kept_nonempty_filter (F : string) (df : string * string) :
  F <> "" -> kept (Some F) df = String.eqb (file_extension (snd df)) (lower F).
Proof.
  intros HF. unfold kept, filtered_out.
  destruct (String.eqb_spec F "") as [->|_]; [contradiction|].
  simpl. now rewrite negb_involutive.
Qed.

Lemma sum_Z_app (l1 l2 : list Z) : sum_Z (l1 ++ l2) = sum_Z l1 + sum_Z l2.
Proof. induction l1 as [|x l1 IH]; simpl; [reflexivity | rewrite IH; lia]. Qed.

Lemma sum_Z_perm (l1 l2 : list Z) : Permutation l1 l2 -> sum_Z l1 = sum_Z l2.
Proof. induction 1; simpl; lia. Qed.

Lemma process_file_counters (os : OS) (F : option string) (df : string * string)
    (st : scan_state) :
  let c := if kept F df then stat_of_file os df else [] in
  file_count (process_walk_file os F st df) = file_count st + Z.of_nat (List.length c)
  /\ total_size (process_walk_file os F st df) = total_size st + sum_Z (map snd c)
  /\ extensions (process_walk_file os F st df) = ext_add_all c (extensions st).
Proof.
  unfold process_walk_file, process_file, stat_of_file, kept, file_extension.
  destruct (os_stat os _) as [stats|e]; simpl.
  - destruct (filtered_out F _); simpl; [repeat split; lia|].
    destruct (file_entry_of _ _ _ _ _); simpl; repeat split; lia.
  - destruct (negb _); simpl; repeat split; lia.
Qed.

(** The counters at the end of the walk. *)
Lemma scan_counters (os : OS) (F : option string)
    (walk : list (string * list string * list string)) (st : scan_state) :
  file_count (scan os F walk st)
  = file_count st + Z.of_nat (List.length (counted_files os F walk))
  /\ total_size (scan os F walk st)
     = total_size st + sum_Z (map snd (counted_files os F walk))
  /\ extensions (scan os F walk st)
     = ext_add_all (counted_files os F walk) (extensions st).
Proof.
  unfold counted_files. rewrite scan_walk_files, <- flat_map_filter.
  generalize (walk_files walk) as files. intros files. revert st.
  induction files as [|df files IH]; intros st; simpl.
  - repeat split; lia.
  - destruct (IH (process_walk_file os F st df)) as (H1 & H2 & H3).
    destruct (process_file_counters os F df st) as (P1 & P2 & P3).
    rewrite H1, H2, H3, P1, P2, P3. unfold ext_add_all.
    rewrite length_app, map_app, sum_Z_app, fold_left_app.
    repeat split; lia.
Qed.

(** C7, amended. For a filter [F] that is not empty, the files retained are
    those whose extension equals [F] lowercased: the inventory holds the
    records of exactly these files (of those that [os.stat] reads and whose
    record is built), the counter counts exactly these (of those that
    [os.stat] reads), and a filter that differs from [F] in case only
    gives the same report.  The extension of a base name is its lowercased
    suffix from the last dot when a character other than the dot stands
    before that dot, and empty otherwise. *)
Theorem filter_keeps_matching_extension (os : OS) (root_folder F : string)
    (lg : logger) :
  F <> "" ->
  let matching :=
    filter (fun df => String.eqb (file_extension (snd df)) (lower F))
      (walk_files (os_walk os root_folder)) in
  exists (report : Report.t) (lg' : logger),
    collect_file_stats os root_folder (Some F) lg = (Ok report, lg')
    /\ Report.all_files report
       = py_sorted_reverse FileEntry.size (flat_map (entry_of_file os) matching)
    /\ Report.file_count report
       = Z.of_nat (List.length (flat_map (stat_of_file os) matching))
    /\ (forall G : string,
          lower G = lower F ->
          fst (collect_file_stats os root_folder (Some G) lg) = Ok report)
    /\ (forall f : string,
          rfind "/" f = -1 ->
          (only_dots_before_last_dot f -> file_extension f = "")
          /\ (~ only_dots_before_last_dot f -> file_extension f = spec_extension f)).
Proof.
  intros HF matching.
  assert (Hkept : filter (kept (Some F)) (walk_files (os_walk os root_folder)) = matching).
  { apply filter_ext. intros df. now apply kept_nonempty_filter. }
  eexists. eexists. split; [apply collect_file_stats_returns|].
  unfold report_of_state, final_state.
  cbn [Report.all_files Report.file_count]. repeat split.
  - rewrite scan_all_files, Hkept. reflexivity.
  - destruct (scan_counters os (Some F) (os_walk os root_folder) (initial_state lg))
      as (H1 & _). rewrite H1. unfold counted_files. rewrite Hkept. reflexivity.
  - intros G HG. rewrite collect_file_stats_returns. simpl. f_equal.
    unfold final_state.
    rewrite (scan_filter_ext os (Some G) (Some F)); [reflexivity|].
    intros ext. unfold filtered_out. rewrite HG. f_equal.
    destruct (String.eqb_spec G "") as [->|HGn].
    + simpl in HG. symmetry in HG. apply lower_empty in HG. contradiction.
    + destruct (String.eqb_spec F ""); [contradiction | reflexivity].
  - now apply file_extension_spec.
  - now apply file_extension_spec.
Qed.

(* ------------------------------------------------------------------ *)
(** * The scenarios of the spec *)

(** The first scenario of the spec: [/analyze] on the three files. *)
Example scenario_analyze :
  fst (analyze_directory scenario_os "/data" None []) = Ok scenario_report.
Proof. reflexivity. Qed.

(** The second scenario: [/analyze?extension=.txt]. *)
Example scenario_analyze_txt :
  fst (analyze_directory scenario_os "/data" (Some ".txt") [])
  = Ok (Report.mk 2 150 [(".txt", ExtensionStats.mk 2 150)]
          [entry 100 "/data/a.txt" "a.txt" ".txt"; entry 50 "/data/b.txt" "b.txt" ".txt"]
          [entry 100 "/data/a.txt" "a.txt" ".txt"; entry 50 "/data/b.txt" "b.txt" ".txt"]).
Proof. reflexivity. Qed.

(** The third scenario: [/analyze/files?limit=2&offset=1]. *)
Example scenario_page :
  exists page,
    fst (get_paginated_files scenario_os "/data" 2 1 None []) = Ok page
    /\ PaginatedFiles.results page
       = [entry 100 "/data/a.txt" "a.txt" ".txt"; entry 50 "/data/b.txt" "b.txt" ".txt"]
    /\ PaginatedFiles.total page = 3
    /\ PaginatedFiles.has_next page = false
    /\ PaginatedFiles.has_previous page = true.
Proof. eexists. split; [reflexivity|]. repeat split. Qed.

Example splitext_examples :
  map splitext ["a.txt"; "archive.tar.gz"; "README"; ".bashrc"; "..a"; "a."; "...a.TXT"]
  = [("a", ".txt"); ("archive.tar", ".gz"); ("README", ""); (".bashrc", "");
     ("..a", ""); ("a", "."); ("...a", ".TXT")].
Proof. reflexivity. Qed.

(** ** The hidden file *)

(** C7 as stated fails on a hidden file: with the filter [.bashrc], the
    file [.bashrc] has the filter as its suffix from the last dot, its
    [os.stat] succeeds and its record can be built, and the report is
    empty all the same, since [os.path.splitext] gives it no extension. *)
Lemma dotfile_filter_drops_dotfile :
  walk_files (os_walk dotfile_os "/home/u") = [("/home/u", ".bashrc")]
  /\ lower ".bashrc" = spec_extension ".bashrc"
  /\ entry_of_file dotfile_os ("/home/u", ".bashrc")
     = [entry 120 "/home/u/.bashrc" ".bashrc" ""]
  /\ file_extension ".bashrc" = ""
  /\ fst (collect_file_stats dotfile_os "/home/u" (Some ".bashrc") [])
     = Ok (Report.mk 0 0 [] [] []).
Proof. repeat split. Qed.

(** The filter [.TXT] on the directory of the scenarios. *)
Lemma filter_keeps_matching_extension_witness :
  exists (report : Report.t) (lg' : logger),
    collect_file_stats scenario_os "/data" (Some ".TXT") [] = (Ok report, lg')
    /\ Report.all_files report
       = py_sorted_reverse FileEntry.size
           (flat_map (entry_of_file scenario_os)
              (filter (fun df => String.eqb (file_extension (snd df)) (lower ".TXT"))
                 (walk_files (os_walk scenario_os "/data"))))
    /\ Report.file_count report
       = Z.of_nat (List.length
           (flat_map (stat_of_file scenario_os)
              (filter (fun df => String.eqb (file_extension (snd df)) (lower ".TXT"))
                 (walk_files (os_walk scenario_os "/data")))))
    /\ (forall G : string,
          lower G = lower ".TXT" ->
          fst (collect_file_stats scenario_os "/data" (Some G) []) = Ok report)
    /\ (forall f : string,
          rfind "/" f = -1 ->
          (only_dots_before_last_dot f -> file_extension f = "")
          /\ (~ only_dots_before_last_dot f -> file_extension f = spec_extension f)).
Proof.
  apply (filter_keeps_matching_extension scenario_os "/data" ".TXT" []).
  discriminate.
Defined.

(** ** The file whose record cannot be built *)

(** C1 on the directory with the file named by one space: the report counts
    two files and 105 bytes and lists one record of 100 bytes. *)
Lemma blank_name_totals_exceed_inventory :
  fst (collect_file_stats blank_name_os "/srv/files" None []) = Ok blank_name_report
  /\ Report.total_size blank_name_report = 105
  /\ sum_Z (map FileEntry.size (Report.all_files blank_name_report)) = 100
  /\ Report.file_count blank_name_report = 2
  /\ List.length (Report.all_files blank_name_report) = 1%nat.
Proof. repeat split. Qed.

(** C3 on the same directory: building the record of the file named by one
    space raises after its [os.stat] has succeeded; the file is in no list,
    the scan goes on, and the file has been counted: one file and 5 bytes
    in the totals and in the entry of the empty extension. *)
Lemma blank_name_failure_is_counted :
  os_stat blank_name_os (os_path_join "/srv/files" " ") = Ok (plain_stat 5)
  /\ file_entry_of blank_name_os "/srv/files/ " " " "" (plain_stat 5)
     = Raise (ValidationError "FileEntry" "name")
  /\ (let st := process_file blank_name_os None "/srv/files" " " (initial_state []) in
      file_count st = 1 /\ total_size st = 5
      /\ extensions st = [("", {| acc_count := 1; acc_size := 5 |})]
      /\ all_files st = []
      /\ log st = [WarnFailedToProcess "/srv/files/ " (ValidationError "FileEntry" "name")])
  /\ fst (collect_file_stats blank_name_os "/srv/files" None []) = Ok blank_name_report.
Proof. repeat split. Qed.

(** C4 on the same directory: the report has an entry for the empty
    extension, of count 1 and size 5, and no record with that extension. *)
Lemma blank_name_extension_without_record :
  fst (collect_file_stats blank_name_os "/srv/files" None []) = Ok blank_name_report
  /\ dict_get "" (Report.extensions blank_name_report) = Some (ExtensionStats.mk 1 5)
  /\ filter (fun e => String.eqb (FileEntry.extension e) "")
       (Report.all_files blank_name_report) = [].
Proof. repeat split. Qed.

(** ** Instances *)

(** The page of the third scenario. *)
Lemma paginated_view_window_witness :
  exists page : PaginatedFiles.t,
    paginated_view scenario_report 2 1 = Ok page
    /\ PaginatedFiles.total page
       = Z.of_nat (List.length (Report.all_files scenario_report))
    /\ PaginatedFiles.results page
       = py_slice (Report.all_files scenario_report) 1 (1 + 2)
    /\ Z.of_nat (List.length (PaginatedFiles.results page))
       = Z.max 0 (Z.min 2 (Z.of_nat (List.length (Report.all_files scenario_report)) - 1))
    /\ PaginatedFiles.has_next page
       = (1 + 2 <? Z.of_nat (List.length (Report.all_files scenario_report)))
    /\ PaginatedFiles.has_previous page = (0 <? 1).
Proof. apply (paginated_view_window scenario_report 2 1); lia. Defined.

(** The three records of the scenario read two at a time. *)
Lemma read_all_pages_reconstructs_witness :
  read_all_pages 3 scenario_report 2 0 = Some (Report.all_files scenario_report).
Proof. apply (read_all_pages_reconstructs scenario_report 2 3); simpl; lia. Defined.

(** A candidate report whose [largest_files] grow. *)
Lemma report_construction_fails_iff_witness :
  ((exists e, Report.new 2 150 [] [entry 50 "/data/b.txt" "b.txt" ".txt";
                                   entry 100 "/data/a.txt" "a.txt" ".txt"] []
              = Raise e)
   <-> adjacent_inversion [entry 50 "/data/b.txt" "b.txt" ".txt";
                           entry 100 "/data/a.txt" "a.txt" ".txt"]
       \/ (50 < List.length [entry 50 "/data/b.txt" "b.txt" ".txt";
                             entry 100 "/data/a.txt" "a.txt" ".txt"])%nat)
  /\ (~ (adjacent_inversion [entry 50 "/data/b.txt" "b.txt" ".txt";
                             entry 100 "/data/a.txt" "a.txt" ".txt"]
         \/ (50 < List.length [entry 50 "/data/b.txt" "b.txt" ".txt";
                               entry 100 "/data/a.txt" "a.txt" ".txt"])%nat) ->
      exists report,
        Report.new 2 150 [] [entry 50 "/data/b.txt" "b.txt" ".txt";
                             entry 100 "/data/a.txt" "a.txt" ".txt"] []
        = Ok report
        /\ Report.largest_files report
           = [entry 50 "/data/b.txt" "b.txt" ".txt"; entry 100 "/data/a.txt" "a.txt" ".txt"]
        /\ Report.all_files report = []
        /\ Report.file_count report = 2
        /\ Report.total_size report = 150
        /\ Report.extensions report = Report.validate_extensions []).
Proof.
  apply (report_construction_fails_iff 2 150 []
           [entry 50 "/data/b.txt" "b.txt" ".txt"; entry 100 "/data/a.txt" "a.txt" ".txt"]
           []); lia.
Defined.

(** The extensions route on the directory of the scenarios. *)
Lemma get_available_extensions_sorted_witness :
  StronglySorted (desc ExtensionInfo.count)
    (ExtensionListResponse.extensions scenario_extensions)
  /\ exists (report : Report.t) (lg1 : logger),
       collect_file_stats scenario_os "/data" None
         ([] ++ [InfoGettingExtensions "/data"]) = (Ok report, lg1)
       /\ ExtensionListResponse.total_files scenario_extensions
          = Report.file_count report.
Proof.
  apply (get_available_extensions_sorted scenario_os "/data" []
           [InfoGettingExtensions "/data"; InfoScanned 3 None "some bytes"]
           scenario_extensions).
  reflexivity.
Defined.

(* ------------------------------------------------------------------ *)
(** * Further properties of the scan *)

Lemma file_entry_new_fields (size : Z) (path name extension : string)
    (mt ct at_ : datetime) (is_symlink : bool) (inode mode uid gid : Z)
    (e : FileEntry.t) :
  FileEntry.new size path name extension mt ct at_ is_symlink inode mode uid gid = Ok e ->
  FileEntry.size e = size
  /\ FileEntry.name e = strip name
  /\ FileEntry.extension e = strip extension.
Proof.
  unfold FileEntry.new, check, rbind.
  destruct (0 <=? size); [|discriminate].
  destruct (1 <=? len_str (strip path)); [|discriminate].
  destruct (FileEntry.validate_path (strip path)); [|discriminate].
  destruct (1 <=? len_str (strip name)); [|discriminate].
  destruct (0 <=? inode); [|discriminate].
  destruct (0 <=? mode); [|discriminate].
  destruct (0 <=? uid); [|discriminate].
  destruct (0 <=? gid); [|discriminate].
  intros [= <-]. auto.
Qed.

(** A record that is built carries the size [os.stat] reported and the
    extension of the name, stripped. *)
Lemma entry_of_file_stat (os : OS) (df : string * string) (e : FileEntry.t) :
  entry_of_file os df = [e] ->
  stat_of_file os df = [(file_extension (snd df), FileEntry.size e)]
  /\ FileEntry.extension e = strip (file_extension (snd df)).
Proof.
  unfold entry_of_file, stat_of_file, file_entry_of, rbind.
  destruct (os_stat os _) as [stats|]; [|discriminate].
  destruct (datetime_fromtimestamp os (st_mtime stats)); [|discriminate].
  destruct (datetime_fromtimestamp os (st_ctime stats)); [|discriminate].
  destruct (datetime_fromtimestamp os (st_atime stats)); [|discriminate].
  destruct (FileEntry.new _ _ _ _ _ _ _ _ _ _ _ _) as [e'|] eqn:E; [|discriminate].
  intros [= ->]. apply file_entry_new_fields in E. destruct E as (Hs & _ & Hx).
  rewrite Hs. auto.
Qed.

Lemma entry_of_file_cases (os : OS) (df : string * string) :
  entry_of_file os df = [] \/ exists e, entry_of_file os df = [e].
Proof.
  unfold entry_of_file. destruct (os_stat os _); [|now left].
  destruct (file_entry_of _ _ _ _ _); [right; eauto | now left].
Qed.

Lemma records_built_cons (os : OS) (df : string * string) (files : list (string * string)) :
  records_built os (df :: files) -> records_built os files.
Proof. intros H x Hx. apply H. now right. Qed.

(** With every record built, the inventory and the counted files go
    together, one record for one counted file. *)
Lemma inventory_of_counted (os : OS) (files : list (string * string)) :
  records_built os files ->
  map (fun e => (FileEntry.extension e, FileEntry.size e))
    (flat_map (entry_of_file os) files)
  = map (fun es => (strip (fst es), snd es)) (flat_map (stat_of_file os) files).
Proof.
  induction files as [|df files IH]; intros Hb; [reflexivity|].
  simpl. rewrite !map_app, IH by (eapply records_built_cons; eauto). f_equal.
  destruct (entry_of_file_cases os df) as [Hnil|[e He]].
  - destruct (stat_of_file os df) as [|x l] eqn:Es; [now rewrite Hnil|].
    exfalso. apply (Hb df); [now left | rewrite Es; discriminate | assumption].
  - destruct (entry_of_file_stat os df e He) as (Hs & Hx).
    rewrite He, Hs. simpl. now rewrite Hx.
Qed.

(** X1. When the record of every file that the filter keeps and [os.stat]
    reads is built, the totals of the report are those of its records. *)
Theorem totals_match_records_when_built (os : OS) (root_folder : string)
    (F : option string) (lg : logger) :
  records_built os (filter (kept F) (walk_files (os_walk os root_folder))) ->
  exists (report : Report.t) (lg' : logger),
    collect_file_stats os root_folder F lg = (Ok report, lg')
    /\ Report.file_count report = Z.of_nat (List.length (Report.all_files report))
    /\ Report.total_size report
       = sum_Z (map FileEntry.size (Report.all_files report)).
Proof.
  intros Hb. eexists. eexists. split; [apply collect_file_stats_returns|].
  unfold report_of_state, final_state.
  cbn [Report.all_files Report.file_count Report.total_size].
  destruct (scan_counters os F (os_walk os root_folder) (initial_state lg))
    as (H1 & H2 & _). rewrite H1, H2. simpl file_count. simpl total_size.
  rewrite py_sorted_reverse_length.
  rewrite <- (sum_Z_perm _ _ (Permutation_map FileEntry.size
                                (py_sorted_reverse_perm FileEntry.size _))).
  rewrite scan_all_files. simpl app. unfold counted_files.
  pose proof (inventory_of_counted os _ Hb) as Hinv.
  assert (Hsz : map FileEntry.size
                  (flat_map (entry_of_file os)
                     (filter (kept F) (walk_files (os_walk os root_folder))))
                = map snd (flat_map (stat_of_file os)
                     (filter (kept F) (walk_files (os_walk os root_folder))))).
  { apply (f_equal (map snd)) in Hinv. rewrite !map_map in Hinv. exact Hinv. }
  split.
  - rewrite <- (length_map FileEntry.size), Hsz, length_map. lia.
  - rewrite Hsz. lia.
Qed.



(** X4. Sorting the [all_files] of a report again leaves it as it is. *)
Theorem all_files_sort_idempotent (os : OS) (root_folder : string)
    (F : option string) (lg : logger) :
  exists (report : Report.t) (lg' : logger),
    collect_file_stats os root_folder F lg = (Ok report, lg')
    /\ py_sorted_reverse FileEntry.size (Report.all_files report)
       = Report.all_files report.
Proof.
  eexists. eexists. split; [apply collect_file_stats_returns|].
  apply py_sorted_reverse_idempotent.
Qed.

(** X5. The totals of a report are the number and the sizes of the files
    that the filter keeps and [os.stat] reads, whether or not their record
    is built. *)
Theorem totals_count_stat_files (os : OS) (root_folder : string)
    (F : option string) (lg : logger) :
  exists (report : Report.t) (lg' : logger),
    collect_file_stats os root_folder F lg = (Ok report, lg')
    /\ Report.file_count report
       = Z.of_nat (List.length (counted_files os F (os_walk os root_folder)))
    /\ Report.total_size report
       = sum_Z (map snd (counted_files os F (os_walk os root_folder))).
Proof.
  eexists. eexists. split; [apply collect_file_stats_returns|].
  unfold report_of_state, final_state. cbn [Report.file_count Report.total_size].
  destruct (scan_counters os F (os_walk os root_folder) (initial_state lg))
    as (H1 & H2 & _). rewrite H1, H2. simpl. split; lia.
Qed.

(** ** The entries of the extensions *)

Lemma dict_get_ext_add (k ext : string) (size : Z) (d : list (string * ext_acc)) :
  dict_get k (ext_add ext size d)
  = if String.eqb ext k then Some (acc_plus (dict_get k d) 1 size) else dict_get k d.
Proof.
  induction d as [|[k' v] d IH]; simpl.
  - destruct (String.eqb ext k); reflexivity.
  - destruct (String.eqb_spec k' ext) as [->|Hne]; simpl.
    + destruct (String.eqb ext k); reflexivity.
    + rewrite IH. destruct (String.eqb_spec k' k) as [->|Hk]; [|reflexivity].
      destruct (String.eqb_spec ext k) as [->|_]; [contradiction | reflexivity].
Qed.

Lemma dict_get_ext_add_all (k : string) (c : list (string * Z))
    (d : list (string * ext_acc)) :
  dict_get k (ext_add_all c d)
  = match filter (with_ext k) c with
    | [] => dict_get k d
    | l => Some (acc_plus (dict_get k d) (Z.of_nat (List.length l)) (sum_Z (map snd l)))
    end.
Proof.
  revert d. induction c as [|[ext size] c IH]; intros d; [reflexivity|].
  unfold ext_add_all in *. simpl fold_left. rewrite IH, dict_get_ext_add.
  simpl filter. unfold with_ext at 2. simpl fst.
  destruct (String.eqb ext k).
  - destruct (filter (with_ext k) c) as [|x l];
      destruct (dict_get k d) as [v|]; unfold acc_plus;
      cbn [acc_count acc_size List.length map snd sum_Z fold_right];
      f_equal; f_equal; lia.
  - reflexivity.
Qed.

Lemma ext_add_keys (ext : string) (size : Z) (d : list (string * ext_acc)) (k : string) :
  In k (map fst (ext_add ext size d)) <-> k = ext \/ In k (map fst d).
Proof.
  induction d as [|[k' v] d IH]; simpl.
  - intuition congruence.
  - destruct (String.eqb_spec k' ext) as [->|Hne]; simpl.
    + intuition congruence.
    + rewrite IH. intuition congruence.
Qed.

Lemma ext_add_NoDup (ext : string) (size : Z) (d : list (string * ext_acc)) :
  NoDup (map fst d) -> NoDup (map fst (ext_add ext size d)).
Proof.
  induction d as [|[k' v] d IH]; simpl; intros Hn.
  - repeat constructor. intros [].
  - inversion Hn as [|? ? Hk Hd]; subst.
    destruct (String.eqb_spec k' ext) as [->|Hne]; simpl.
    + now constructor.
    + constructor; [|now apply IH].
      rewrite ext_add_keys. intros [->|H]; contradiction.
Qed.

Lemma ext_add_all_keys (c : list (string * Z)) (d : list (string * ext_acc)) :
  NoDup (map fst d) ->
  NoDup (map fst (ext_add_all c d))
  /\ (forall k, In k (map fst (ext_add_all c d)) ->
                In k (map fst c) \/ In k (map fst d)).
Proof.
  revert d. induction c as [|[ext size] c IH]; intros d Hd.
  - split; [assumption | now right].
  - unfold ext_add_all in *. simpl fold_left.
    destruct (IH (ext_add ext size d) (ext_add_NoDup ext size d Hd)) as (Hn & Hk).
    split; [assumption|]. intros k Hin. destruct (Hk k Hin) as [H|H].
    + left. now right.
    + apply ext_add_keys in H. destruct H as [->|H]; [left; now left | now right].
Qed.

Lemma dict_set_fresh {V : Type} (k : string) (v : V) (d : list (string * V)) :
  ~ In k (map fst d) -> dict_set k v d = d ++ [(k, v)].
Proof.
  induction d as [|[k' v'] d IH]; simpl; intros Hn; [reflexivity|].
  destruct (String.eqb_spec k' k) as [->|Hne]; [exfalso; apply Hn; now left|].
  rewrite IH; [reflexivity|]. intros H. apply Hn. now right.
Qed.

Lemma validate_extensions_from (d out : list (string * ExtensionStats.t)) :
  NoDup (map fst (out ++ d)) -> (forall k, In k (map fst d) -> strip k = k) ->
  fold_left (fun out kv => dict_set (strip (fst kv)) (snd kv) out) d out = out ++ d.
Proof.
  revert out. induction d as [|[k v] d IH]; intros out Hn Hs; simpl.
  - now rewrite app_nil_r.
  - rewrite (Hs k) by now left.
    assert (Hfresh : ~ In k (map fst out)).
    { rewrite map_app in Hn. simpl in Hn. apply NoDup_remove_2 in Hn.
      intros H. apply Hn. apply in_or_app. now left. }
    rewrite (dict_set_fresh k v out Hfresh).
    replace (out ++ (k, v) :: d) with ((out ++ [(k, v)]) ++ d)
      by (now rewrite <- app_assoc).
    apply IH.
    + now rewrite <- app_assoc.
    + intros k' Hk'. apply Hs. now right.
Qed.

(** A dict whose keys are already stripped passes the validation of the
    report unchanged. *)
Lemma validate_extensions_stripped (d : list (string * ExtensionStats.t)) :
  NoDup (map fst d) -> (forall k, In k (map fst d) -> strip k = k) ->
  Report.validate_extensions d = d.
Proof.
  intros Hn Hs. unfold Report.validate_extensions.
  now rewrite validate_extensions_from.
Qed.

Lemma dict_get_stats_of_acc (k : string) (d : list (string * ext_acc)) :
  dict_get k (map stats_of_acc d)
  = option_map (fun v => ExtensionStats.mk (acc_count v) (acc_size v)) (dict_get k d).
Proof.
  induction d as [|[k' v] d IH]; simpl; [reflexivity|].
  destruct (String.eqb k' k); [reflexivity | exact IH].
Qed.

Lemma filter_with_ext_records (k : string) (l : list FileEntry.t) :
  filter (with_ext k) (map ext_size_of l)
  = map ext_size_of (filter (fun e => String.eqb (FileEntry.extension e) k) l).
Proof.
  induction l as [|e l IH]; [reflexivity|]. simpl. unfold with_ext at 1. simpl.
  destruct (String.eqb (FileEntry.extension e) k); simpl; now rewrite IH.
Qed.

Lemma in_flat_stat_ext (os : OS) (files : list (string * string)) (k : string) :
  In k (map fst (flat_map (stat_of_file os) files)) ->
  exists df, In df files /\ k = file_extension (snd df).
Proof.
  rewrite in_map_iff. intros ([k' s] & <- & Hin). apply in_flat_map in Hin.
  destruct Hin as (df & Hdf & Hin). exists df. split; [assumption|].
  unfold stat_of_file in Hin. destruct (os_stat os _); [|contradiction].
  destruct Hin as [[= <- _]|[]]. reflexivity.
Qed.

Lemma filter_perm {A : Type} (p : A -> bool) (l l' : list A) :
  Permutation l l' -> Permutation (filter p l) (filter p l').
Proof.
  induction 1 as [|x l l' H IH|x y l|l l' l'' H1 IH1 H2 IH2]; simpl.
  - constructor.
  - destruct (p x); [now constructor | assumption].
  - destruct (p x), (p y); try apply Permutation_refl. apply perm_swap.
  - eapply perm_trans; eauto.
Qed.

Lemma map_strip_fixed (c : list (string * Z)) :
  (forall k, In k (map fst c) -> strip k = k) ->
  map (fun es => (strip (fst es), snd es)) c = c.
Proof.
  induction c as [|[k s] c IH]; intros H; [reflexivity|]. simpl.
  rewrite (H k) by now left. rewrite IH; [reflexivity|].
  intros k' Hk'. apply H. now right.
Qed.

(** X6. When the record of every file that the filter keeps and [os.stat]
    reads is built, and no extension of such a file ends in white space,
    the entry of each key of [extensions] holds the number and the sizes of
    the records of [all_files] with that extension, and only the extensions
    of records are keys. *)
Theorem extension_entries_match_records (os : OS) (root_folder : string)
    (F : option string) (lg : logger) :
  records_built os (filter (kept F) (walk_files (os_walk os root_folder))) ->
  (forall df, In df (filter (kept F) (walk_files (os_walk os root_folder))) ->
              strip (file_extension (snd df)) = file_extension (snd df)) ->
  exists (report : Report.t) (lg' : logger),
    collect_file_stats os root_folder F lg = (Ok report, lg')
    /\ forall k : string,
         dict_get k (Report.extensions report)
         = match filter (fun e => String.eqb (FileEntry.extension e) k)
                   (Report.all_files report) with
           | [] => None
           | records =>
               Some (ExtensionStats.mk (Z.of_nat (List.length records))
                       (sum_Z (map FileEntry.size records)))
           end.
Proof.
  intros Hb Hs. eexists. eexists. split; [apply collect_file_stats_returns|].
  intros k. unfold report_of_state, final_state.
  cbn [Report.all_files Report.extensions].
  set (files := filter (kept F) (walk_files (os_walk os root_folder))) in *.
  destruct (scan_counters os F (os_walk os root_folder) (initial_state lg))
    as (_ & _ & Hext). rewrite Hext. simpl extensions.
  unfold counted_files. fold files. set (counted := flat_map (stat_of_file os) files).
  assert (Hkeys : forall k', In k' (map fst counted) -> strip k' = k').
  { intros k' Hk'. apply in_flat_stat_ext in Hk'. destruct Hk' as (df & Hdf & ->).
    now apply Hs. }
  destruct (ext_add_all_keys counted [] (NoDup_nil _)) as (Hnd & Hin).
  rewrite validate_extensions_stripped.
  2: { unfold stats_of_acc. rewrite map_map. simpl. exact Hnd. }
  2: { intros k' Hk'. unfold stats_of_acc in Hk'. rewrite map_map in Hk'. simpl in Hk'.
       destruct (Hin k' Hk') as [H|[]]. now apply Hkeys. }
  rewrite dict_get_stats_of_acc, dict_get_ext_add_all. simpl dict_get.
  rewrite scan_all_files. simpl app. fold files.
  set (inv := flat_map (entry_of_file os) files).
  assert (Hinv : map ext_size_of inv = counted).
  { unfold inv, counted, ext_size_of. rewrite inventory_of_counted by assumption.
    now apply map_strip_fixed. }
  set (pk := fun e => String.eqb (FileEntry.extension e) k).
  assert (Hperm : Permutation (filter pk inv)
                    (filter pk (py_sorted_reverse FileEntry.size inv)))
    by apply filter_perm, py_sorted_reverse_perm.
  assert (Hcnt : filter (with_ext k) counted = map ext_size_of (filter pk inv))
    by (rewrite <- Hinv; apply filter_with_ext_records).
  assert (Hlen : List.length (filter (with_ext k) counted)
                 = List.length (filter pk (py_sorted_reverse FileEntry.size inv)))
    by (rewrite Hcnt, length_map; now apply Permutation_length).
  assert (Hsum : sum_Z (map snd (filter (with_ext k) counted))
                 = sum_Z (map FileEntry.size
                            (filter pk (py_sorted_reverse FileEntry.size inv)))).
  { rewrite Hcnt, map_map. simpl.
    apply sum_Z_perm, Permutation_map, Hperm. }
  destruct (filter (with_ext k) counted) as [|x l] eqn:Ec;
    destruct (filter pk (py_sorted_reverse FileEntry.size inv)) as [|y r] eqn:Er;
    try discriminate; [reflexivity|].
  unfold acc_plus, option_map. cbn [acc_count acc_size]. rewrite Hlen, Hsum.
  reflexivity.
Qed.

(** Every record of the directory of the scenarios is built. *)
Lemma scenario_records_built (F : option string) :
  records_built scenario_os (filter (kept F) (walk_files (os_walk scenario_os "/data"))).
Proof.
  intros df Hin _. apply filter_In in Hin. destruct Hin as [Hin _].
  simpl in Hin. destruct Hin as [<-|[<-|[<-|[]]]]; discriminate.
Defined.

(** The totals of the first scenario. *)
Lemma totals_match_records_when_built_witness :
  exists (report : Report.t) (lg' : logger),
    collect_file_stats scenario_os "/data" None [] = (Ok report, lg')
    /\ Report.file_count report = Z.of_nat (List.length (Report.all_files report))
    /\ Report.total_size report
       = sum_Z (map FileEntry.size (Report.all_files report)).
Proof.
  apply (totals_match_records_when_built scenario_os "/data" None []).
  apply scenario_records_built.
Defined.


(** The entries of the extensions of the first scenario. *)
Lemma extension_entries_match_records_witness :
  exists (report : Report.t) (lg' : logger),
    collect_file_stats scenario_os "/data" None [] = (Ok report, lg')
    /\ forall k : string,
         dict_get k (Report.extensions report)
         = match filter (fun e => String.eqb (FileEntry.extension e) k)
                   (Report.all_files report) with
           | [] => None
           | records =>
               Some (ExtensionStats.mk (Z.of_nat (List.length records))
                       (sum_Z (map FileEntry.size records)))
           end.
Proof.
  apply (extension_entries_match_records scenario_os "/data" None []).
  - apply scenario_records_built.
  - intros df Hin. simpl in Hin. destruct Hin as [<-|[<-|[<-|[]]]]; reflexivity.
Defined.


(* ------------------------------------------------------------------ *)
(** * The rest of the program *)

(** ** The parts of a path *)

Lemma rfind_from_range (c : ascii) (p : string) (i found : Z) :
  rfind_from c p i found = found
  \/ i <= rfind_from c p i found < i + Z.of_nat (String.length p).
Proof.
  revert i found. induction p as [|a p IH]; intros i found.
  - now left.
  - cbn [rfind_from String.length].
    destruct (IH (i + 1) (if Ascii.eqb a c then i else found)) as [H|H].
    + rewrite H. destruct (Ascii.eqb a c); [right; lia | now left].
    + right. lia.
Qed.

Lemma rfind_range (c : ascii) (p : string) :
  -1 <= rfind c p < Z.of_nat (String.length p).
Proof.
  unfold rfind. destruct (rfind_from_range c p 0 (-1)) as [H|H]; lia.
Qed.

Lemma rfind_from_shift (c : ascii) (p : string) (i found : Z) :
  rfind_from c p i found = if rfind c p =? -1 then found else i + rfind c p.
Proof.
  unfold rfind. revert i found. induction p as [|a p IH]; intros i found.
  - reflexivity.
  - cbn [rfind_from]. rewrite (IH (i + 1)), (IH (0 + 1)).
    pose proof (rfind_range c p) as Hr. unfold rfind in Hr.
    destruct (rfind_from c p 0 (-1) =? -1) eqn:E.
    + destruct (Ascii.eqb a c); simpl; [f_equal; lia | reflexivity].
    + apply Z.eqb_neq in E.
      destruct (0 + 1 + rfind_from c p 0 (-1) =? -1) eqn:E'; [apply Z.eqb_eq in E'; lia|].
      lia.
Qed.

(** [rfind] by the characters of the string. *)
Lemma rfind_cons (c a : ascii) (p : string) :
  rfind c (String a p)
  = if rfind c p =? -1 then (if Ascii.eqb a c then 0 else -1) else 1 + rfind c p.
Proof.
  unfold rfind at 1. cbn [rfind_from]. rewrite rfind_from_shift. reflexivity.
Qed.

Lemma rfind_nil (c : ascii) : rfind c "" = -1.
Proof. reflexivity. Qed.

Lemma substring_all (p : string) : String.substring 0 (String.length p) p = p.
Proof. induction p as [|a p IH]; simpl; [reflexivity | now rewrite IH]. Qed.

Lemma str_from_drop (n : nat) (p : string) :
  (n <= String.length p)%nat -> str_from (Z.of_nat n) p = str_drop n p.
Proof.
  unfold str_from. rewrite Nat2Z.id. revert n.
  induction p as [|a p IH]; intros [|n] Hn; simpl in *; try reflexivity; try lia.
  - now rewrite substring_all.
  - apply IH. lia.
Qed.

Lemma str_upto_drop (n : nat) (p : string) :
  (str_upto (Z.of_nat n) p ++ str_drop n p)%string = p.
Proof.
  unfold str_upto. rewrite Nat2Z.id. revert n.
  induction p as [|a p IH]; intros [|n]; simpl; try reflexivity.
  now rewrite IH.
Qed.

Lemma append_empty_r (s : string) : (s ++ "")%string = s.
Proof. induction s as [|a s IH]; simpl; [reflexivity | now rewrite IH]. Qed.

(** At the last [c] of [p] starts [c] followed by a string without [c]. *)
Lemma str_drop_rfind (c : ascii) (p : string) (n : nat) :
  rfind c p = Z.of_nat n ->
  exists rest, str_drop n p = String c rest /\ rfind c rest = -1.
Proof.
  revert n. induction p as [|a p IH]; intros n H.
  - rewrite rfind_nil in H. lia.
  - rewrite rfind_cons in H. destruct (rfind c p =? -1) eqn:E.
    + apply Z.eqb_eq in E. destruct (Ascii.eqb_spec a c) as [->|Hne]; [|lia].
      destruct n; [|lia]. simpl. eauto.
    + destruct n as [|n]; [pose proof (rfind_range c p); apply Z.eqb_neq in E; lia|].
      simpl. apply IH. lia.
Qed.

(** Behind the last [c] of [p] there is no [c]. *)
Lemma rfind_str_drop (c : ascii) (p : string) (n : nat) :
  rfind c p < Z.of_nat n -> rfind c (str_drop n p) = -1.
Proof.
  revert n. induction p as [|a p IH]; intros n H.
  - destruct n; reflexivity.
  - destruct n as [|n]; [simpl in *; pose proof (rfind_range c (String a p)); lia|].
    simpl. apply IH. rewrite rfind_cons in H.
    destruct (rfind c p =? -1) eqn:E; [apply Z.eqb_eq in E; lia | lia].
Qed.

Lemma splitext_parts (p : string) :
  (fst (splitext p) ++ snd (splitext p))%string = p
  /\ (snd (splitext p) = ""
      \/ exists rest, snd (splitext p) = String "." rest
                      /\ rfind "." rest = -1 /\ rfind "/" rest = -1).
Proof.
  unfold splitext.
  pose proof (rfind_range "." p) as Hd. pose proof (rfind_range "/" p) as Hs.
  destruct (rfind "/" p <? rfind "." p) eqn:E;
    [|split; [apply append_empty_r | now left]].
  destruct (splitext_loop p _ _);
    [|split; [apply append_empty_r | now left]].
  apply Z.ltb_lt in E. cbn [fst snd].
  assert (Hn : rfind "." p = Z.of_nat (Z.to_nat (rfind "." p))) by lia.
  set (n := Z.to_nat (rfind "." p)) in *. rewrite Hn.
  rewrite str_from_drop by lia. split; [apply str_upto_drop|].
  right. destruct (str_drop_rfind "." p n Hn) as (rest & Hrest & Hnodot).
  exists rest. split; [assumption|]. split; [assumption|].
  assert (Hsl : rfind "/" (str_drop n p) = -1) by (apply rfind_str_drop; lia).
  rewrite Hrest, rfind_cons in Hsl.
  destruct (rfind "/" rest =? -1) eqn:E1; [now apply Z.eqb_eq in E1|].
  pose proof (rfind_range "/" rest). lia.
Qed.

(** X8. [os.path.splitext] cuts the path in two: root and extension put
    together give the path back, and the extension is empty or a dot
    followed by characters that are neither dots nor slashes. *)
Theorem splitext_root_ext (p : string) :
  (fst (splitext p) ++ snd (splitext p))%string = p
  /\ (snd (splitext p) = ""
      \/ exists rest, snd (splitext p) = String "." rest
                      /\ rfind "." rest = -1 /\ rfind "/" rest = -1).
Proof. apply splitext_parts. Qed.

(** ** White space and case *)

Lemma lstrip_idempotent (s : string) : lstrip (lstrip s) = lstrip s.
Proof.
  induction s as [|c s IH]; [reflexivity|]. simpl.
  destruct (is_space c) eqn:E; [assumption|]. simpl. now rewrite E.
Qed.

Lemma rstrip_idempotent (s : string) : rstrip (rstrip s) = rstrip s.
Proof.
  induction s as [|c s IH]; [reflexivity|]. cbn [rstrip].
  destruct (is_space c && String.eqb (rstrip s) "") eqn:E; [reflexivity|].
  cbn [rstrip]. rewrite IH, E. reflexivity.
Qed.

(** Stripping on the left keeps a string stripped on the right. *)
Lemma rstrip_lstrip_fixed (s : string) : rstrip s = s -> rstrip (lstrip s) = lstrip s.
Proof.
  induction s as [|c s IH]; [reflexivity|]. intros H. cbn [lstrip].
  destruct (is_space c) eqn:E; [|exact H].
  apply IH. cbn [rstrip] in H. rewrite E in H. simpl in H.
  destruct (String.eqb (rstrip s) ""); [discriminate | now injection H].
Qed.

Lemma strip_idempotent (s : string) : strip (strip s) = strip s.
Proof.
  unfold strip. rewrite rstrip_lstrip_fixed by apply rstrip_idempotent.
  apply lstrip_idempotent.
Qed.

Lemma is_space_lower (c : ascii) : is_space (lower_ascii c) = is_space c.
Proof.
  unfold lower_ascii. destruct ((65 <=? N_of_ascii c) && (N_of_ascii c <=? 90))%N eqn:E;
    [|reflexivity].
  apply andb_true_iff in E. destruct E as [E1 E2].
  apply N.leb_le in E1, E2. unfold is_space. rewrite N_ascii_embedding by lia.
  repeat match goal with |- context [(?a <=? ?b)%N] =>
    destruct (N.leb_spec a b) end;
  repeat match goal with |- context [(?a =? ?b)%N] =>
    destruct (N.eqb_spec a b) end; try reflexivity; lia.
Qed.

Lemma lower_lstrip (s : string) : lower (lstrip s) = lstrip (lower s).
Proof.
  induction s as [|c s IH]; [reflexivity|]. simpl. rewrite is_space_lower.
  destruct (is_space c); [assumption | reflexivity].
Qed.

Lemma lower_eq_empty (s : string) : String.eqb (lower s) "" = String.eqb s "".
Proof. destruct s; reflexivity. Qed.

Lemma lower_rstrip (s : string) : lower (rstrip s) = rstrip (lower s).
Proof.
  induction s as [|c s IH]; [reflexivity|]. cbn [rstrip lower].
  rewrite is_space_lower, <- IH, lower_eq_empty.
  destruct (is_space c && String.eqb (rstrip s) ""); reflexivity.
Qed.

Lemma lower_strip (s : string) : lower (strip s) = strip (lower s).
Proof. unfold strip. now rewrite lower_lstrip, lower_rstrip. Qed.

Lemma lower_ascii_idempotent (c : ascii) : lower_ascii (lower_ascii c) = lower_ascii c.
Proof.
  unfold lower_ascii at 2. destruct ((65 <=? N_of_ascii c) && (N_of_ascii c <=? 90))%N eqn:E;
    [|unfold lower_ascii; now rewrite E].
  apply andb_true_iff in E. destruct E as [E1 E2]. apply N.leb_le in E1, E2.
  unfold lower_ascii. rewrite N_ascii_embedding by lia.
  replace (N_of_ascii c + 32 <=? 90)%N with false
    by (symmetry; apply N.leb_gt; lia).
  rewrite andb_false_r.
  destruct (N.leb_spec 65 (N_of_ascii c)); destruct (N.leb_spec (N_of_ascii c) 90);
    simpl; try reflexivity; lia.
Qed.

Lemma lower_idempotent (s : string) : lower (lower s) = lower s.
Proof.
  induction s as [|c s IH]; [reflexivity|]. simpl.
  now rewrite lower_ascii_idempotent, IH.
Qed.

Lemma lstrip_dot (rest : string) : lstrip (String "." rest) = String "." rest.
Proof. reflexivity. Qed.

Lemma rstrip_dot (rest : string) : rstrip (String "." rest) = String "." (rstrip rest).
Proof. reflexivity. Qed.

Lemma strip_dot (rest : string) : strip (String "." rest) = String "." (rstrip rest).
Proof. reflexivity. Qed.

(** ** The records of a report *)

Lemma file_entry_new_revalidates (size : Z) (path name extension : string)
    (mt ct at_ : datetime) (is_symlink : bool) (inode mode uid gid : Z)
    (e : FileEntry.t) :
  FileEntry.new size path name extension mt ct at_ is_symlink inode mode uid gid = Ok e ->
  revalidate e = Ok e
  /\ 0 <= FileEntry.size e
  /\ os_path_isabs (FileEntry.path e) = true
  /\ FileEntry.name e <> ""
  /\ 0 <= FileEntry.inode e /\ 0 <= FileEntry.mode e
  /\ 0 <= FileEntry.owner_uid e /\ 0 <= FileEntry.group_gid e.
Proof.
  unfold revalidate, FileEntry.new, FileEntry.validate_path, check, rbind.
  destruct (0 <=? size) eqn:E1; [|discriminate].
  destruct (1 <=? len_str (strip path)) eqn:E2; [|discriminate].
  destruct (os_path_isabs (strip path)) eqn:E3; [|discriminate]. cbn [negb].
  destruct (1 <=? len_str (strip name)) eqn:E4; [|discriminate].
  destruct (0 <=? inode) eqn:E5; [|discriminate].
  destruct (0 <=? mode) eqn:E6; [|discriminate].
  destruct (0 <=? uid) eqn:E7; [|discriminate].
  destruct (0 <=? gid) eqn:E8; [|discriminate].
  intros [= <-]. cbn [FileEntry.size FileEntry.path FileEntry.name FileEntry.extension
       FileEntry.modified_time FileEntry.created_time FileEntry.accessed_time
       FileEntry.is_symlink FileEntry.inode FileEntry.mode FileEntry.owner_uid
       FileEntry.group_gid].
  rewrite !strip_idempotent.
  rewrite E1, E2, E3, E4, E5, E6, E7, E8. cbn [negb].
  apply Z.leb_le in E1, E4, E5, E6, E7, E8.
  repeat split; try assumption.
  intros Hn. rewrite Hn in E4. unfold len_str in E4. simpl in E4. lia.
Qed.

(** X9. A [FileEntry] that was built passes its own validation again
    unchanged; its size and identifiers are not negative, its path is
    absolute and its name is not empty. *)
Theorem file_entry_validation_idempotent (size : Z) (path name extension : string)
    (mt ct at_ : datetime) (is_symlink : bool) (inode mode uid gid : Z)
    (e : FileEntry.t) :
  FileEntry.new size path name extension mt ct at_ is_symlink inode mode uid gid = Ok e ->
  revalidate e = Ok e
  /\ 0 <= FileEntry.size e
  /\ os_path_isabs (FileEntry.path e) = true
  /\ FileEntry.name e <> ""
  /\ 0 <= FileEntry.inode e /\ 0 <= FileEntry.mode e
  /\ 0 <= FileEntry.owner_uid e /\ 0 <= FileEntry.group_gid e.
Proof. apply file_entry_new_revalidates. Qed.

Lemma file_extension_shape (f : string) :
  lower (strip (file_extension f)) = strip (file_extension f)
  /\ (strip (file_extension f) = ""
      \/ exists rest, strip (file_extension f) = String "." rest).
Proof.
  unfold file_extension. split.
  - now rewrite lower_strip, lower_idempotent.
  - destruct (splitext_parts f) as (_ & [-> | (rest & -> & _)]).
    + now left.
    + right. cbn [lower]. change (lower_ascii ".") with "."%char.
      rewrite strip_dot. eauto.
Qed.

Lemma entry_of_file_valid (os : OS) (df : string * string) (e : FileEntry.t) :
  In e (entry_of_file os df) -> entry_valid e.
Proof.
  intros Hin. destruct (entry_of_file_cases os df) as [Hnil|[e' He']];
    [rewrite Hnil in Hin; contradiction|].
  rewrite He' in Hin. destruct Hin as [->|[]].
  destruct (entry_of_file_stat os df e He') as (_ & Hx).
  split.
  - unfold entry_of_file, file_entry_of, rbind in He'.
    destruct (os_stat os _) as [stats|]; [|discriminate].
    destruct (datetime_fromtimestamp os (st_mtime stats)); [|discriminate].
    destruct (datetime_fromtimestamp os (st_ctime stats)); [|discriminate].
    destruct (datetime_fromtimestamp os (st_atime stats)); [|discriminate].
    destruct (FileEntry.new _ _ _ _ _ _ _ _ _ _ _ _) as [e'|] eqn:E; [|discriminate].
    injection He' as ->. now apply file_entry_new_revalidates in E.
  - rewrite Hx. apply file_extension_shape.
Qed.

(** X10. Every record a report lists, in [all_files] and in
    [largest_files], is a valid [FileEntry]: it passes the model's
    validation unchanged, and its extension is in lower case and is empty
    or starts with a dot. *)
Theorem report_records_valid (os : OS) (root_folder : string)
    (F : option string) (lg : logger) :
  exists (report : Report.t) (lg' : logger),
    collect_file_stats os root_folder F lg = (Ok report, lg')
    /\ Forall entry_valid (Report.all_files report)
    /\ Forall entry_valid (Report.largest_files report).
Proof.
  eexists. eexists. split; [apply collect_file_stats_returns|].
  unfold report_of_state, final_state.
  cbn [Report.all_files Report.largest_files].
  rewrite scan_all_files. cbn [all_files initial_state app].
  set (inv := flat_map (entry_of_file os) _).
  assert (Hinv : Forall entry_valid inv).
  { apply Forall_forall. intros e He. apply in_flat_map in He.
    destruct He as (df & _ & He). eapply entry_of_file_valid; eauto. }
  assert (Hsorted : Forall entry_valid (py_sorted_reverse FileEntry.size inv))
    by (eapply Permutation_Forall; [apply py_sorted_reverse_perm | exact Hinv]).
  split; [exact Hsorted|].
  apply Forall_forall. intros e He. rewrite Forall_forall in Hsorted.
  apply Hsorted. eapply in_firstn; eauto.
Qed.

Lemma StronglySorted_app_inv {A : Type} (R : A -> A -> Prop) (l1 l2 : list A) :
  StronglySorted R (l1 ++ l2) ->
  forall a b, In a l1 -> In b l2 -> R a b.
Proof.
  induction l1 as [|x l1 IH]; simpl; intros Hs a b Ha Hb; [contradiction|].
  inversion Hs as [|? ? Hl Hx]; subst. destruct Ha as [->|Ha].
  - rewrite Forall_forall in Hx. apply Hx. apply in_or_app. now right.
  - now apply IH.
Qed.

(** X11. [largest_files] holds the largest records: [all_files] is
    [largest_files] followed by the records left out, there are
    [min(10, len(all_files))] of them, and no record left out is larger
    than one of [largest_files]. *)
Theorem largest_files_are_largest (os : OS) (root_folder : string)
    (F : option string) (lg : logger) :
  exists (report : Report.t) (lg' : logger) (others : list FileEntry.t),
    collect_file_stats os root_folder F lg = (Ok report, lg')
    /\ Report.all_files report = Report.largest_files report ++ others
    /\ List.length (Report.largest_files report)
       = Nat.min 10 (List.length (Report.all_files report))
    /\ (forall a b, In a (Report.largest_files report) -> In b others ->
                    FileEntry.size b <= FileEntry.size a).
Proof.
  eexists. eexists.
  exists (skipn 10 (py_sorted_reverse FileEntry.size
                      (all_files (final_state os root_folder F lg)))).
  split; [apply collect_file_stats_returns|].
  unfold report_of_state. cbn [Report.all_files Report.largest_files].
  set (sorted := py_sorted_reverse FileEntry.size _).
  split; [now rewrite firstn_skipn|]. split; [apply length_firstn|].
  apply (StronglySorted_app_inv (desc FileEntry.size)).
  rewrite firstn_skipn. apply py_sorted_reverse_sorted.
Qed.

Lemma stat_of_file_nonneg (os : OS) (df : string * string) (es : string * Z) :
  In es (stat_of_file os df) -> 0 <= snd es.
Proof.
  unfold stat_of_file. destruct (os_stat os _); [|contradiction].
  intros [<-|[]]. simpl. lia.
Qed.

Lemma records_below_counted (os : OS) (files : list (string * string)) :
  (List.length (flat_map (entry_of_file os) files)
   <= List.length (flat_map (stat_of_file os) files))%nat
  /\ sum_Z (map FileEntry.size (flat_map (entry_of_file os) files))
     <= sum_Z (map snd (flat_map (stat_of_file os) files)).
Proof.
  induction files as [|df files [IHl IHs]]; simpl; [split; lia|].
  rewrite !length_app, !map_app, !sum_Z_app.
  destruct (entry_of_file_cases os df) as [Hnil|[e He]].
  - rewrite Hnil. simpl. split; [lia|].
    assert (0 <= sum_Z (map snd (stat_of_file os df))); [|lia].
    unfold stat_of_file. destruct (os_stat os _); simpl; lia.
  - destruct (entry_of_file_stat os df e He) as (Hs & _).
    rewrite He, Hs. simpl. split; lia.
Qed.

(** X12. The totals of a report never fall short of its records:
    [file_count >= len(all_files)] and [total_size] is at least the sum of
    the sizes in [all_files]. *)
Theorem totals_never_undercount (os : OS) (root_folder : string)
    (F : option string) (lg : logger) :
  exists (report : Report.t) (lg' : logger),
    collect_file_stats os root_folder F lg = (Ok report, lg')
    /\ Z.of_nat (List.length (Report.all_files report)) <= Report.file_count report
    /\ sum_Z (map FileEntry.size (Report.all_files report))
       <= Report.total_size report.
Proof.
  eexists. eexists. split; [apply collect_file_stats_returns|].
  unfold report_of_state, final_state.
  cbn [Report.all_files Report.file_count Report.total_size].
  destruct (scan_counters os F (os_walk os root_folder) (initial_state lg))
    as (H1 & H2 & _). rewrite H1, H2. cbn [file_count total_size initial_state].
  rewrite py_sorted_reverse_length.
  rewrite <- (sum_Z_perm _ _ (Permutation_map FileEntry.size
                                (py_sorted_reverse_perm FileEntry.size _))).
  rewrite scan_all_files. cbn [all_files initial_state app]. unfold counted_files.
  destruct (records_below_counted os
              (filter (kept F) (walk_files (os_walk os root_folder)))) as [Hl Hs].
  split; lia.
Qed.

(** ** Extensions and the order of the walk *)

(** With such files the validation of the report leaves the entries of the
    walk as they are. *)
Lemma report_extensions_of_counted (os : OS) (F : option string)
    (walk : list (string * list string * list string)) (lg : logger) :
  extensions_stripped (filter (kept F) (walk_files walk)) ->
  Report.extensions (report_of_state (scan os F walk (initial_state lg)))
  = map stats_of_acc (ext_add_all (counted_files os F walk) []).
Proof.
  intros Hs. unfold report_of_state. cbn [Report.extensions].
  destruct (scan_counters os F walk (initial_state lg)) as (_ & _ & Hext).
  rewrite Hext. cbn [extensions initial_state].
  destruct (ext_add_all_keys (counted_files os F walk) [] (NoDup_nil _)) as (Hnd & Hin).
  apply validate_extensions_stripped.
  - unfold stats_of_acc. rewrite map_map. exact Hnd.
  - intros k Hk. unfold stats_of_acc in Hk. rewrite map_map in Hk. cbn [fst] in Hk.
    destruct (Hin k Hk) as [H|[]]. unfold counted_files in H.
    apply in_flat_stat_ext in H. destruct H as (df & Hdf & ->). now apply Hs.
Qed.

Lemma ext_add_sums (ext : string) (size : Z) (d : list (string * ext_acc)) :
  sum_counts (map stats_of_acc (ext_add ext size d))
  = sum_counts (map stats_of_acc d) + 1
  /\ sum_sizes (map stats_of_acc (ext_add ext size d))
     = sum_sizes (map stats_of_acc d) + size.
Proof.
  unfold sum_counts, sum_sizes.
  induction d as [|[k v] d [IHc IHs]]; simpl; [split; lia|].
  destruct (String.eqb k ext); simpl; [split; lia|].
  simpl in IHc, IHs. rewrite IHc, IHs. split; lia.
Qed.

Lemma ext_add_all_sums (c : list (string * Z)) (d : list (string * ext_acc)) :
  sum_counts (map stats_of_acc (ext_add_all c d))
  = sum_counts (map stats_of_acc d) + Z.of_nat (List.length c)
  /\ sum_sizes (map stats_of_acc (ext_add_all c d))
     = sum_sizes (map stats_of_acc d) + sum_Z (map snd c).
Proof.
  revert d. induction c as [|[ext size] c IH]; intros d.
  - unfold ext_add_all. simpl. split; lia.
  - unfold ext_add_all in *. cbn [fold_left fst snd].
    destruct (IH (ext_add ext size d)) as [Hc Hs].
    destruct (ext_add_sums ext size d) as [Hc1 Hs1].
    rewrite Hc, Hs, Hc1, Hs1. cbn [List.length map snd sum_Z fold_right].
    fold (sum_Z (map snd c)). split; lia.
Qed.

(** X13. When no extension of a retained file ends in white space, the
    entries of [extensions] add up to the totals: their counts to
    [file_count], their sizes to [total_size]. *)
Theorem extension_entries_sum_to_totals (os : OS) (root_folder : string)
    (F : option string) (lg : logger) :
  extensions_stripped (filter (kept F) (walk_files (os_walk os root_folder))) ->
  exists (report : Report.t) (lg' : logger),
    collect_file_stats os root_folder F lg = (Ok report, lg')
    /\ sum_counts (Report.extensions report) = Report.file_count report
    /\ sum_sizes (Report.extensions report) = Report.total_size report.
Proof.
  intros Hs. eexists. eexists. split; [apply collect_file_stats_returns|].
  unfold final_state. rewrite report_extensions_of_counted by assumption.
  unfold report_of_state. cbn [Report.file_count Report.total_size].
  destruct (scan_counters os F (os_walk os root_folder) (initial_state lg))
    as (H1 & H2 & _). rewrite H1, H2.
  destruct (ext_add_all_sums (counted_files os F (os_walk os root_folder)) [])
    as [Hc Hz]. rewrite Hc, Hz. cbn. split; lia.
Qed.

Lemma filter_has_key_short {A : Type} (key : A -> Z) (k : Z) (l : list A) :
  NoDup (map key l) -> (List.length (filter (has_key key k) l) <= 1)%nat.
Proof.
  induction l as [|x l IH]; simpl; intros Hn; [lia|].
  inversion Hn as [|? ? Hx Hl]; subst. specialize (IH Hl).
  unfold has_key at 1. destruct (Z.eqb_spec (key x) k) as [Hk|Hk]; [|lia].
  simpl. destruct (filter (has_key key k) l) as [|y r] eqn:E; [simpl; lia|].
  exfalso. apply Hx. assert (Hy : In y (filter (has_key key k) l)) by (rewrite E; now left).
  apply filter_In in Hy. destruct Hy as [Hy Hyk]. apply Z.eqb_eq in Hyk.
  apply in_map_iff. exists y. split; [congruence | assumption].
Qed.

Lemma perm_short_eq {A : Type} (l l' : list A) :
  Permutation l l' -> (List.length l <= 1)%nat -> l = l'.
Proof.
  intros Hp Hl. destruct l as [|x [|y l]]; simpl in Hl; try lia.
  - now apply Permutation_nil in Hp.
  - now apply Permutation_length_1_inv in Hp.
Qed.

(** The sorted inventory depends on the order of the walk only where sizes
    are equal. *)
Lemma py_sorted_reverse_perm_eq {A : Type} (key : A -> Z) (l l' : list A) :
  Permutation l l' -> NoDup (map key l) ->
  py_sorted_reverse key l' = py_sorted_reverse key l.
Proof.
  intros Hp Hn. apply py_sorted_reverse_unique; [apply py_sorted_reverse_sorted|].
  intros k. rewrite py_sorted_reverse_stable. symmetry.
  apply perm_short_eq; [now apply filter_perm | now apply filter_has_key_short].
Qed.

Lemma dict_get_counted_perm (k : string) (c c' : list (string * Z)) :
  Permutation c c' ->
  dict_get k (map stats_of_acc (ext_add_all c []))
  = dict_get k (map stats_of_acc (ext_add_all c' [])).
Proof.
  intros Hp. rewrite !dict_get_stats_of_acc, !dict_get_ext_add_all.
  pose proof (filter_perm (with_ext k) _ _ Hp) as Hf.
  pose proof (Permutation_length Hf) as Hl.
  pose proof (sum_Z_perm _ _ (Permutation_map snd Hf)) as Hs.
  destruct (filter (with_ext k) c) as [|x l];
    destruct (filter (with_ext k) c') as [|y r]; try discriminate; [reflexivity|].
  cbv beta iota zeta. now rewrite Hl, Hs.
Qed.

(** X14. The order in which the walk yields the files matters only for
    records of equal size: for a walk that yields the same files in another
    order the report has the same [file_count] and [total_size], its
    [all_files] is a rearrangement, and the very same list when the sizes
    are pairwise distinct; the entries of [extensions] are the same when no
    extension of a retained file ends in white space. *)
Theorem walk_order_irrelevant (os : OS) (root_folder : string) (F : option string)
    (lg : logger) (walk' : list (string * list string * list string)) :
  Permutation (walk_files (os_walk os root_folder)) (walk_files walk') ->
  exists (report report' : Report.t) (lg1 lg2 : logger),
    collect_file_stats os root_folder F lg = (Ok report, lg1)
    /\ collect_file_stats (with_walk os walk') root_folder F lg = (Ok report', lg2)
    /\ Report.file_count report' = Report.file_count report
    /\ Report.total_size report' = Report.total_size report
    /\ Permutation (Report.all_files report) (Report.all_files report')
    /\ (NoDup (map FileEntry.size (Report.all_files report)) ->
        Report.all_files report' = Report.all_files report
        /\ Report.largest_files report' = Report.largest_files report)
    /\ (extensions_stripped (filter (kept F) (walk_files (os_walk os root_folder))) ->
        forall k, dict_get k (Report.extensions report')
                  = dict_get k (Report.extensions report)).
Proof.
  intros Hp. eexists. eexists. eexists. eexists.
  split; [apply collect_file_stats_returns|].
  split; [apply collect_file_stats_returns|].
  unfold final_state. cbn [os_walk with_walk].
  set (files := walk_files (os_walk os root_folder)) in *.
  set (files' := walk_files walk') in *.
  assert (Hk : Permutation (filter (kept F) files) (filter (kept F) files'))
    by now apply filter_perm.
  assert (Hc : Permutation (counted_files os F (os_walk os root_folder))
                 (counted_files (with_walk os walk') F walk')).
  { unfold counted_files. fold files files'.
    change (stat_of_file (with_walk os walk')) with (stat_of_file os).
    now apply Permutation_flat_map. }
  assert (Hi : Permutation
                 (all_files (scan os F (os_walk os root_folder) (initial_state lg)))
                 (all_files (scan (with_walk os walk') F walk' (initial_state lg)))).
  { rewrite !scan_all_files. cbn [all_files initial_state app]. fold files files'.
    change (entry_of_file (with_walk os walk')) with (entry_of_file os).
    now apply Permutation_flat_map. }
  destruct (scan_counters os F (os_walk os root_folder) (initial_state lg))
    as (H1 & H2 & _).
  destruct (scan_counters (with_walk os walk') F walk' (initial_state lg))
    as (H1' & H2' & _).
  assert (Hsame : NoDup (map FileEntry.size
                     (py_sorted_reverse FileEntry.size
                        (all_files (scan os F (os_walk os root_folder)
                                      (initial_state lg))))) ->
                  py_sorted_reverse FileEntry.size
                    (all_files (scan (with_walk os walk') F walk' (initial_state lg)))
                  = py_sorted_reverse FileEntry.size
                      (all_files (scan os F (os_walk os root_folder)
                                    (initial_state lg)))).
  { intros H. apply py_sorted_reverse_perm_eq; [exact Hi|].
    eapply Permutation_NoDup; [|exact H].
    apply Permutation_map, Permutation_sym, py_sorted_reverse_perm. }
  split; [|split; [|split; [|split]]].
  - unfold report_of_state. cbn [Report.file_count].
    rewrite H1, H1'. now rewrite (Permutation_length Hc).
  - unfold report_of_state. cbn [Report.total_size].
    rewrite H2, H2'. f_equal. symmetry. apply sum_Z_perm. now apply Permutation_map.
  - unfold report_of_state. cbn [Report.all_files].
    eapply perm_trans; [apply Permutation_sym, py_sorted_reverse_perm|].
    eapply perm_trans; [exact Hi | apply py_sorted_reverse_perm].
  - unfold report_of_state. cbn [Report.all_files Report.largest_files].
    intros H. rewrite (Hsame H). split; reflexivity.
  - intros H k. rewrite !report_extensions_of_counted.
    + symmetry. now apply dict_get_counted_perm.
    + exact H.
    + intros df Hdf. apply H. fold files.
      eapply Permutation_in; [apply Permutation_sym, Hk | exact Hdf].
Qed.

(** ** The log of the walk *)

Lemma process_file_log (os : OS) (F : option string) (df : string * string)
    (st : scan_state) :
  log (process_walk_file os F st df) = log st ++ warning_of_file os F df.
Proof.
  unfold process_walk_file, process_file, warning_of_file, file_extension.
  destruct (os_stat os _) as [stats|e]; [|reflexivity].
  destruct (filtered_out F _); [now rewrite app_nil_r|].
  destruct (file_entry_of _ _ _ _ _); simpl; [now rewrite app_nil_r | reflexivity].
Qed.

Lemma scan_log (os : OS) (F : option string)
    (walk : list (string * list string * list string)) (st : scan_state) :
  log (scan os F walk st) = log st ++ flat_map (warning_of_file os F) (walk_files walk).
Proof.
  rewrite scan_walk_files. generalize (walk_files walk) as files. intros files.
  revert st. induction files as [|df files IH]; intros st; simpl.
  - now rewrite app_nil_r.
  - rewrite IH, process_file_log. now rewrite <- app_assoc.
Qed.



Lemma warning_of_file_is_warning (os : OS) (F : option string) (df : string * string) :
  Forall is_warning (warning_of_file os F df).
Proof.
  unfold warning_of_file. destruct (os_stat os _) as [stats|e].
  - destruct (filtered_out F _); [constructor|].
    destruct (file_entry_of _ _ _ _ _); repeat constructor. red. eauto.
  - repeat constructor. red. eauto.
Qed.


Lemma unreadable_files (os : OS) (F : option string) (files : list (string * string)) :
  (forall df, In df files ->
              exists e, os_stat os (os_path_join (fst df) (snd df)) = Raise e) ->
  flat_map (stat_of_file os) (filter (kept F) files) = []
  /\ flat_map (entry_of_file os) (filter (kept F) files) = []
  /\ List.length (flat_map (warning_of_file os F) files) = List.length files.
Proof.
  rewrite <- !flat_map_filter.
  induction files as [|df files IH]; intros Hall; [repeat split|].
  destruct IH as (IH1 & IH2 & IH3); [intros x Hx; apply Hall; now right|].
  destruct (Hall df (or_introl eq_refl)) as [e He].
  cbn [flat_map]. rewrite IH1, IH2, length_app, IH3.
  unfold stat_of_file, entry_of_file, warning_of_file. rewrite He.
  destruct (kept F df); repeat split.
Qed.

(** X16. When [os.stat] raises for every file of the walk the report is the
    empty one, not an error, and each file has its warning. *)
Theorem unreadable_tree_gives_empty_report (os : OS) (root_folder : string)
    (F : option string) (lg : logger) :
  (forall df, In df (walk_files (os_walk os root_folder)) ->
              exists e, os_stat os (os_path_join (fst df) (snd df)) = Raise e) ->
  exists (warnings : list log_record) (scanned : log_record),
    collect_file_stats os root_folder F lg
    = (Ok (Report.mk 0 0 [] [] []), lg ++ warnings ++ [scanned])
    /\ Forall is_warning warnings
    /\ List.length warnings = List.length (walk_files (os_walk os root_folder)).
Proof.
  intros Hall.
  destruct (unreadable_files os F _ Hall) as (Hc & He & Hw).
  exists (flat_map (warning_of_file os F) (walk_files (os_walk os root_folder))).
  eexists. split; [|split].
  - rewrite collect_file_stats_returns. unfold final_state, report_of_state.
    destruct (scan_counters os F (os_walk os root_folder) (initial_state lg))
      as (H1 & H2 & H3).
    rewrite scan_log, scan_all_files, H1, H2, H3. unfold counted_files.
    rewrite Hc, He. cbn. now rewrite <- app_assoc.
  - apply Forall_flat_map, Forall_forall. intros df _.
    apply warning_of_file_is_warning.
  - exact Hw.
Qed.

(** ** Pages and routes *)

Lemma firstn_nonempty {A : Type} (n : nat) (l : list A) :
  firstn n l <> [] <-> (0 < n)%nat /\ l <> [].
Proof.
  destruct n, l; simpl; split; try intros [H1 H2]; intros; try congruence; try lia.
  split; [lia | discriminate].
Qed.

Lemma skipn_nonempty {A : Type} (n : nat) (l : list A) :
  skipn n l <> [] <-> (n < List.length l)%nat.
Proof.
  split.
  - intros H. destruct (Nat.lt_ge_cases n (List.length l)) as [Hl|Hl]; [assumption|].
    now rewrite skipn_all2 in H.
  - intros Hl H. apply (f_equal (@List.length A)) in H. rewrite length_skipn in H.
    simpl in H. lia.
Qed.

(** X17. For a limit in [1,100] and an offset that is not negative,
    [has_next] tells whether the next page (offset + limit) holds a record,
    and the page itself is empty exactly when the offset has reached the
    total. *)
Theorem has_next_iff_next_page (report : Report.t) (limit offset : Z) :
  1 <= limit <= 100 -> 0 <= offset ->
  exists page next : PaginatedFiles.t,
    paginated_view report limit offset = Ok page
    /\ paginated_view report limit (offset + limit) = Ok next
    /\ (PaginatedFiles.has_next page = true <-> PaginatedFiles.results next <> [])
    /\ (PaginatedFiles.results page = []
        <-> Z.of_nat (List.length (Report.all_files report)) <= offset).
Proof.
  intros Hl Ho. eexists. eexists.
  split; [now apply paginated_view_ok|].
  split; [apply paginated_view_ok; lia|].
  unfold PaginatedFiles.has_next.
  cbn [PaginatedFiles.results PaginatedFiles.total PaginatedFiles.offset
       PaginatedFiles.limit].
  rewrite !py_slice_nonneg by lia.
  set (l := Report.all_files report). split.
  - rewrite Z.ltb_lt, firstn_nonempty, skipn_nonempty. lia.
  - split.
    + intros H. destruct (Z.le_gt_cases (Z.of_nat (List.length l)) offset) as [Hc|Hc];
        [assumption|].
      exfalso. revert H. apply firstn_nonempty. split; [lia|].
      apply skipn_nonempty. lia.
    + intros H. rewrite skipn_all2 by lia. apply firstn_nil.
Qed.

Lemma StronglySorted_skipn {A : Type} (R : A -> A -> Prop) (n : nat) (l : list A) :
  StronglySorted R l -> StronglySorted R (skipn n l).
Proof.
  revert l. induction n as [|n IH]; intros l Hs; [exact Hs|].
  destruct l as [|x l]; [constructor|]. simpl. apply IH. now inversion Hs.
Qed.

(** X18. The pages of a scan go down in size: the records of a page are in
    non-increasing order of size, and no record of the next page is larger
    than a record of this one. *)
Theorem pages_descend (os : OS) (root_folder : string) (F : option string)
    (lg : logger) (limit offset : Z) :
  1 <= limit <= 100 -> 0 <= offset ->
  exists (report : Report.t) (lg' : logger) (page next : PaginatedFiles.t),
    collect_file_stats os root_folder F lg = (Ok report, lg')
    /\ paginated_view report limit offset = Ok page
    /\ paginated_view report limit (offset + limit) = Ok next
    /\ StronglySorted (desc FileEntry.size) (PaginatedFiles.results page)
    /\ (forall a b, In a (PaginatedFiles.results page) ->
                    In b (PaginatedFiles.results next) ->
                    FileEntry.size b <= FileEntry.size a).
Proof.
  intros Hl Ho. eexists. eexists. eexists. eexists.
  split; [apply collect_file_stats_returns|].
  split; [now apply paginated_view_ok|].
  split; [apply paginated_view_ok; lia|].
  cbn [PaginatedFiles.results]. rewrite !py_slice_nonneg by lia.
  unfold report_of_state. cbn [Report.all_files].
  set (l := py_sorted_reverse FileEntry.size _).
  assert (Hs : StronglySorted (desc FileEntry.size) (skipn (Z.to_nat offset) l))
    by apply StronglySorted_skipn, py_sorted_reverse_sorted.
  split; [now apply StronglySorted_firstn|].
  intros a b Ha Hb.
  replace (offset + limit - offset) with limit in Ha by lia.
  replace (Z.to_nat (offset + limit)) with (Z.to_nat limit + Z.to_nat offset)%nat
    in Hb by lia.
  rewrite <- skipn_skipn in Hb. apply in_firstn in Hb.
  rewrite <- (firstn_skipn (Z.to_nat limit) (skipn (Z.to_nat offset) l)) in Hs.
  exact (StronglySorted_app_inv _ _ _ Hs a b Ha Hb).
Qed.

Lemma result_map_ok {A B : Type} (f : A -> result B) (g : A -> B) (l : list A) :
  (forall x, In x l -> f x = Ok (g x)) -> result_map f l = Ok (map g l).
Proof.
  induction l as [|x l IH]; intros H; [reflexivity|].
  simpl. rewrite (H x) by now left. simpl. rewrite IH; [reflexivity|].
  intros y Hy. apply H. now right.
Qed.

Lemma dict_set_values {V : Type} (Q : V -> Prop) (k : string) (v : V)
    (d : list (string * V)) :
  Q v -> Forall (fun kv => Q (snd kv)) d -> Forall (fun kv => Q (snd kv)) (dict_set k v d).
Proof.
  intros Hv. induction 1 as [|[k' v'] d Hx Hd IH]; simpl.
  - now repeat constructor.
  - destruct (String.eqb k' k); constructor; auto.
Qed.

Lemma validate_extensions_values (d : list (string * ExtensionStats.t)) :
  Forall stats_ok d -> Forall stats_ok (Report.validate_extensions d).
Proof.
  unfold Report.validate_extensions.
  assert (H : forall out, Forall stats_ok out -> Forall stats_ok d ->
                Forall stats_ok
                  (fold_left (fun out kv => dict_set (strip (fst kv)) (snd kv) out) d out)).
  { induction d as [|kv d IH]; intros out Ho Hd; [exact Ho|].
    inversion Hd; subst. simpl. apply IH; [|assumption].
    now apply (dict_set_values (fun v => 1 <= ExtensionStats.count v
                                        /\ 0 <= ExtensionStats.size v)). }
  intros Hd. apply H; [constructor | assumption].
Qed.

Lemma report_extensions_ok (os : OS) (F : option string)
    (walk : list (string * list string * list string)) (lg : logger) :
  Forall stats_ok (Report.extensions (report_of_state (scan os F walk (initial_state lg)))).
Proof.
  unfold report_of_state. cbn [Report.extensions].
  apply validate_extensions_values.
  destruct (scan_ok os F walk _ (initial_state_ok lg)) as (_ & _ & He).
  apply Forall_map. eapply Forall_impl; [|exact He]. intros [k v] H. exact H.
Qed.

Lemma extension_info_new_ok (os : OS) (x : string * ExtensionStats.t) :
  stats_ok x ->
  ExtensionInfo.new (fst x) (ExtensionStats.count (snd x)) (ExtensionStats.size (snd x))
    (naturalsize os (ExtensionStats.size (snd x))) = Ok (info_of os x).
Proof.
  intros [Hc Hs]. unfold ExtensionInfo.new, check, rbind.
  destruct (1 <=? _) eqn:E1; [|apply Z.leb_gt in E1; lia].
  destruct (0 <=? _) eqn:E2; [|apply Z.leb_gt in E2; lia]. reflexivity.
Qed.

Lemma extension_infos_built (os : OS) (F : option string)
    (walk : list (string * list string * list string)) (lg : logger)
    (x : string * ExtensionStats.t) :
  In x (py_sorted_reverse (fun x => ExtensionStats.count (snd x))
          (Report.extensions (report_of_state (scan os F walk (initial_state lg))))) ->
  ExtensionInfo.new (fst x) (ExtensionStats.count (snd x)) (ExtensionStats.size (snd x))
    (naturalsize os (ExtensionStats.size (snd x))) = Ok (info_of os x).
Proof.
  intros Hin. apply extension_info_new_ok.
  pose proof (report_extensions_ok os F walk lg) as Hok.
  rewrite Forall_forall in Hok. apply Hok.
  eapply Permutation_in; [apply Permutation_sym, py_sorted_reverse_perm | exact Hin].
Qed.

Lemma get_available_extensions_returns (os : OS) (path : string) (lg : logger) :
  os_path_isdir os path = true -> strip path <> "" ->
  let lg0 := lg ++ [InfoGettingExtensions path] in
  let report := report_of_state (final_state os path None lg0) in
  get_available_extensions os path lg
  = (Ok (ExtensionListResponse.mk (strip path) (Report.file_count report)
           (map (info_of os)
              (py_sorted_reverse (fun x => ExtensionStats.count (snd x))
                 (Report.extensions report)))),
     snd (collect_file_stats os path None lg0)).
Proof.
  intros Hd Hb lg0 report. unfold get_available_extensions. rewrite Hd. cbn [negb].
  unfold bind, emit, lift. fold lg0. rewrite collect_file_stats_returns. fold report.
  rewrite (result_map_ok _ (info_of os)) by apply extension_infos_built.
  unfold ExtensionListResponse.new, check, rbind.
  assert (Hlen : (1 <=? len_str (strip path)) = true).
  { apply Z.leb_le. unfold len_str. destruct (strip path); [contradiction|].
    simpl. lia. }
  rewrite Hlen.
  assert (Hfc : (0 <=? Report.file_count report) = true).
  { apply Z.leb_le. unfold report, report_of_state, final_state.
    cbn [Report.file_count].
    now destruct (scan_ok os None (os_walk os path) _ (initial_state_ok lg0)). }
  rewrite Hfc. reflexivity.
Qed.


(** X20. For a path that is a directory and not blank, the extensions route
    lists the entries of the report of its scan, each once, with the key,
    the count, the size and the humanized size of the entry; entries of
    equal count stay in the order of the report. *)
Theorem extension_list_holds_report_entries (os : OS) (path : string) (lg : logger) :
  os_path_isdir os path = true -> strip path <> "" ->
  exists (report : Report.t) (lg' : logger) (response : ExtensionListResponse.t),
    collect_file_stats os path None (lg ++ [InfoGettingExtensions path])
    = (Ok report, lg')
    /\ get_available_extensions os path lg = (Ok response, lg')
    /\ ExtensionListResponse.path response = strip path
    /\ ExtensionListResponse.extensions response
       = map (info_of os)
           (py_sorted_reverse (fun x => ExtensionStats.count (snd x))
              (Report.extensions report))
    /\ Permutation (map (info_of os) (Report.extensions report))
         (ExtensionListResponse.extensions response).
Proof.
  intros Hd Hb. eexists. eexists. eexists.
  split; [apply collect_file_stats_returns|].
  split.
  - rewrite get_available_extensions_returns by assumption.
    rewrite collect_file_stats_returns. reflexivity.
  - cbn [ExtensionListResponse.path ExtensionListResponse.extensions].
    repeat split. apply Permutation_map, py_sorted_reverse_perm.
Qed.

(** ** Streaming a file *)

Lemma file_read_suffix (f : binary_file) (pos : nat) (size : Z) (chunk : list Byte.byte) :
  file_read f pos size = Ok chunk ->
  exists rest, chunk ++ rest = skipn pos (file_bytes f)
               /\ rest = skipn (pos + List.length chunk) (file_bytes f).
Proof.
  unfold file_read. destruct (read_raises f pos); [discriminate|]. intros [= <-].
  destruct (size <? 0).
  - exists []. rewrite app_nil_r. split; [reflexivity|].
    symmetry. apply skipn_all2. rewrite length_skipn. lia.
  - exists (skipn (Z.to_nat size) (skipn pos (file_bytes f))).
    split; [apply firstn_skipn|].
    rewrite skipn_skipn, length_firstn, length_skipn.
    destruct (Nat.min_spec (Z.to_nat size) (List.length (file_bytes f) - pos))
      as [[_ ->]|[Hle ->]]; [f_equal; lia|].
    now rewrite !skipn_all2 by lia.
Qed.

(** The loop ends, and what it has yielded when it ends is the file from
    [pos] up to some point. *)
Lemma read_chunks_prefix (fs : FileOS) (f : binary_file) (chunk_size : Z) (fuel : nat) :
  forall pos : nat,
    (List.length (file_bytes f) - pos <= fuel)%nat ->
    exists s, read_chunks fuel fs f chunk_size pos = Some s
              /\ (exists rest, List.concat (chunks s) ++ rest = skipn pos (file_bytes f))
              /\ Forall (fun c => c <> []) (chunks s)
              /\ (failure s = None \/ exists e, failure s = Some (reading_failed fs e)).
Proof.
  induction fuel as [|fuel IH]; intros pos Hf.
  - simpl. destruct (file_read f pos chunk_size) as [chunk|e] eqn:E.
    + destruct (file_read_suffix f pos chunk_size chunk E) as (rest & Hr & _).
      destruct chunk as [|b chunk].
      * eexists. split; [reflexivity|]. simpl. repeat split; eauto.
      * exfalso. apply (f_equal (@List.length _)) in Hr.
        rewrite length_app, length_skipn in Hr. simpl in Hr. lia.
    + eexists. split; [reflexivity|]. simpl. repeat split; eauto.
  - simpl. destruct (file_read f pos chunk_size) as [chunk|e] eqn:E.
    + destruct (file_read_suffix f pos chunk_size chunk E) as (rest & Hr & Hrest).
      destruct chunk as [|b chunk].
      * eexists. split; [reflexivity|]. simpl. repeat split; eauto.
      * destruct (IH (pos + List.length (b :: chunk))%nat) as (s & -> & (r & Hs) & Hn & Hfail).
        { simpl. lia. }
        eexists. split; [reflexivity|]. cbn [chunks failure]. split; [|split].
        -- exists r. cbn [List.concat]. rewrite <- app_assoc, Hs, <- Hrest. exact Hr.
        -- constructor; [discriminate | assumption].
        -- exact Hfail.
    + eexists. split; [reflexivity|]. simpl. repeat split; eauto.
Qed.

(** X21. [generate_file_chunks] always comes to an end, whatever the chunk
    size; the chunks it has yielded by then are never empty and, put
    together, are the beginning of the file; and it ends normally or by an
    HTTP 500 that carries the error of [open] or of the read. *)
Theorem generated_chunks_are_file_prefix (fs : FileOS) (file_path : string)
    (chunk_size : Z) :
  exists s : streamed,
    generate_file_chunks fs file_path chunk_size = Some s
    /\ Forall (fun c => c <> []) (chunks s)
    /\ (failure s = None \/ exists e, failure s = Some (reading_failed fs e))
    /\ match open_rb fs file_path with
       | Ok f => exists rest, List.concat (chunks s) ++ rest = file_bytes f
       | Raise e => chunks s = [] /\ failure s = Some (reading_failed fs e)
       end.
Proof.
  unfold generate_file_chunks. destruct (open_rb fs file_path) as [f|e].
  - destruct (read_chunks_prefix fs f chunk_size (List.length (file_bytes f)) 0%nat)
      as (s & Hs & Hp & Hn & Hf); [lia|].
    exists s. repeat split; assumption.
  - eexists. split; [reflexivity|]. simpl. repeat split; eauto.
Qed.

(** Without a failing read and with a chunk size that is not zero, the loop
    yields the file from [pos] on. *)
Lemma read_chunks_complete (fs : FileOS) (f : binary_file) (chunk_size : Z) (fuel : nat) :
  (forall pos, read_raises f pos = None) -> chunk_size <> 0 ->
  forall pos : nat,
    (List.length (file_bytes f) - pos <= fuel)%nat ->
    exists cs, read_chunks fuel fs f chunk_size pos
               = Some {| chunks := cs; failure := None |}
               /\ List.concat cs = skipn pos (file_bytes f)
               /\ (0 < chunk_size ->
                   Forall (fun c => Z.of_nat (List.length c) <= chunk_size) cs
                   /\ full_but_last (Z.to_nat chunk_size) cs)
               /\ (chunk_size < 0 -> (List.length cs <= 1)%nat).
Proof.
  intros Hok Hcs. induction fuel as [|fuel IH]; intros pos Hf.
  - simpl. unfold file_read. rewrite Hok.
    rewrite (skipn_all2 (n := pos)) by lia. rewrite firstn_nil.
    destruct (chunk_size <? 0); exists []; 
      (split; [reflexivity|]); simpl; repeat split; auto; try constructor;
      intros i c Hi; destruct i; discriminate.
  - simpl. unfold file_read. rewrite Hok.
    set (left := skipn pos (file_bytes f)).
    destruct (chunk_size <? 0) eqn:En.
    + apply Z.ltb_lt in En. destruct left as [|b left'] eqn:El.
      * exists []. split; [reflexivity|]. simpl. repeat split; auto; lia.
      * destruct (IH (pos + List.length (b :: left'))%nat) as (cs & Hcs' & Hc & _).
        { simpl. lia. }
        assert (Hend : skipn (pos + List.length (b :: left')) (file_bytes f) = []).
        { apply skipn_all2. assert (List.length left = List.length (b :: left'))
            by (now rewrite El). unfold left in H. rewrite length_skipn in H. lia. }
        rewrite Hend in Hc.
        assert (cs = []).
        { destruct (read_chunks_prefix fs f chunk_size fuel
                      (pos + List.length (b :: left'))%nat) as (s & Hs & _ & Hne & _).
          { simpl. lia. }
          rewrite Hcs' in Hs. injection Hs as <-. cbn [chunks] in Hne.
          destruct cs as [|c cs]; [reflexivity|]. inversion Hne; subst.
          simpl in Hc. apply app_eq_nil in Hc. destruct Hc. contradiction. }
        subst cs. rewrite Hcs'. exists [b :: left']. split; [reflexivity|].
        simpl. rewrite app_nil_r. repeat split; auto; lia.
    + apply Z.ltb_ge in En. assert (Hpos : 0 < chunk_size) by lia.
      destruct (firstn (Z.to_nat chunk_size) left) as [|b chunk] eqn:Ec.
      * exists []. split; [reflexivity|]. simpl.
        assert (left = []).
        { destruct left; [reflexivity|]. destruct (Z.to_nat chunk_size) eqn:E; [lia|].
          discriminate. }
        repeat split; auto; try constructor; try lia.
        intros i c Hi. destruct i; discriminate.
      * destruct (IH (pos + List.length (b :: chunk))%nat)
          as (cs & Hcs' & Hc & Hsz & _).
        { simpl. lia. }
        rewrite Hcs'. exists ((b :: chunk) :: cs). split; [reflexivity|].
        assert (Hlen : (List.length (b :: chunk) <= Z.to_nat chunk_size)%nat).
        { rewrite <- Ec, length_firstn. lia. }
        split; [|split].
        -- cbn [List.concat]. rewrite Hc, <- Ec.
           replace (pos + List.length (firstn (Z.to_nat chunk_size) left))%nat
             with (List.length (firstn (Z.to_nat chunk_size) left) + pos)%nat by lia.
           rewrite <- skipn_skipn. fold left.
           rewrite length_firstn.
           destruct (Nat.min_spec (Z.to_nat chunk_size) (List.length left))
             as [[_ ->]|[Hle ->]].
           ++ apply firstn_skipn.
           ++ rewrite skipn_all, firstn_all2 by lia. apply app_nil_r.
        -- intros _. destruct (Hsz Hpos) as [Hall Hfull]. split.
           ++ constructor; [lia | assumption].
           ++ intros i c Hi Hlast. destruct i as [|i].
              ** injection Hi as <-. cbn [List.length] in Hlast.
                 destruct cs as [|c' cs']; [simpl in Hlast; lia|].
                 (* a further chunk exists, so this one is full *)
                 rewrite <- Ec, length_firstn.
                 destruct (Nat.min_spec (Z.to_nat chunk_size) (List.length left))
                   as [[_ ->]|[Hle Hm]]; [reflexivity|].
                 exfalso.
                 assert (Hnil : skipn (pos + List.length (b :: chunk)) (file_bytes f) = []).
                 { apply skipn_all2. rewrite <- Ec, length_firstn, Hm.
                   unfold left. rewrite length_skipn. lia. }
                 rewrite Hnil in Hc. simpl in Hc. apply app_eq_nil in Hc.
                 destruct Hc as [Hc' _]. subst c'.
                 destruct (read_chunks_prefix fs f chunk_size fuel
                             (pos + List.length (b :: chunk))%nat)
                   as (s & Hs & _ & Hne & _).
                 { simpl. lia. }
                 rewrite Hcs' in Hs. injection Hs as <-. cbn [chunks] in Hne.
                 inversion Hne; subst. contradiction.
              ** simpl in Hi. apply (Hfull i c Hi). simpl in Hlast. lia.
        -- intros Hneg. lia.
Qed.

Lemma generated_chunks_reassemble_aux (fs : FileOS) (file_path : string)
    (chunk_size : Z) (f : binary_file) :
  open_rb fs file_path = Ok f ->
  (forall pos, read_raises f pos = None) ->
  chunk_size <> 0 ->
  exists cs : list (list Byte.byte),
    generate_file_chunks fs file_path chunk_size
    = Some {| chunks := cs; failure := None |}
    /\ List.concat cs = file_bytes f
    /\ (0 < chunk_size ->
        Forall (fun c => Z.of_nat (List.length c) <= chunk_size) cs
        /\ full_but_last (Z.to_nat chunk_size) cs)
    /\ (chunk_size < 0 -> (List.length cs <= 1)%nat).
Proof.
  intros Ho Hr Hcs. unfold generate_file_chunks. rewrite Ho.
  apply (read_chunks_complete fs f chunk_size (List.length (file_bytes f)) Hr Hcs 0%nat).
  lia.
Qed.


Lemma N_of_str_of_N (n : N) : N_of_str (str_of_N n) = Some n.
Proof.
  unfold N_of_str, str_of_N. rewrite NilZero.usu.
  - simpl. f_equal. apply DecimalN.Unsigned.of_to.
  - destruct n; [discriminate | apply DecimalPos.Unsigned.to_uint_nonnil].
Qed.

Lemma is_safe_path_true (fs : FileOS) (file_path : string) :
  is_safe_path fs file_path = Ok true ->
  exists resolved, os_path_realpath fs file_path = Ok resolved
                   /\ os_path_exists fs resolved = true
                   /\ os_path_isfile fs resolved = true.
Proof.
  unfold is_safe_path. destruct (os_path_realpath fs file_path) as [r|e].
  - intros [= H]. apply andb_true_iff in H. eauto.
  - destruct e; discriminate.
Qed.

(** X23. [GET /stream] answers only a path that, resolved, names an
    existing regular file, and then, when [os.stat] succeeds, with these
    headers: [Content-Length] the size [os.stat] reports, in decimal,
    [Accept-Ranges: bytes], and a [Content-Disposition] that starts with
    [attachment] when [download] is set and with [inline] otherwise and
    carries the base name; the media type is never empty. *)
Theorem stream_file_headers (fs : FileOS) (file_path : string) (download : bool)
    (response : StreamingResponse) (lg : list file_log_record) :
  stream_file fs file_path download = (Ok response, lg) ->
  (exists resolved, os_path_realpath fs file_path = Ok resolved
                    /\ os_path_exists fs resolved = true
                    /\ os_path_isfile fs resolved = true)
  /\ exists file_stats,
       os_stat_follow fs file_path = Ok file_stats
       /\ dict_get "Content-Length" (headers response)
          = Some (str_of_N (st_size file_stats))
       /\ option_map N_of_str (dict_get "Content-Length" (headers response))
          = Some (Some (st_size file_stats))
       /\ dict_get "Accept-Ranges" (headers response) = Some "bytes"
       /\ dict_get "Content-Disposition" (headers response)
          = Some ((if download then "attachment" else "inline")
                  ++ "; filename=" ++ dquote ++ os_path_basename file_path ++ dquote)%string
       /\ List.length (headers response) = 3%nat
       /\ media_type response <> ""
       /\ body response = generate_file_chunks fs file_path 8192.
Proof.
  unfold stream_file. destruct (is_safe_path fs file_path) as [[|]|e] eqn:Es;
    try discriminate.
  destruct (os_stat_follow fs file_path) as [file_stats|e]; [|discriminate].
  intros [= <- _]. split; [now apply is_safe_path_true|].
  exists file_stats. cbn. repeat split.
  - now rewrite N_of_str_of_N.
  - unfold get_content_type. destruct (mimetypes_guess_type fs file_path) as [c|];
      [|discriminate].
    destruct (String.eqb_spec c ""); [discriminate | assumption].
Qed.

(** ** Base names *)

Lemma rfind_app (c : ascii) (a b : string) :
  rfind c (a ++ b)%string
  = if rfind c b =? -1 then rfind c a else Z.of_nat (String.length a) + rfind c b.
Proof.
  induction a as [|x a IH].
  - simpl String.append. rewrite rfind_nil. simpl String.length.
    destruct (rfind c b =? -1) eqn:E; [now apply Z.eqb_eq in E | lia].
  - simpl String.append. rewrite !rfind_cons, IH.
    pose proof (rfind_range c a) as Ha. pose proof (rfind_range c b) as Hb.
    destruct (rfind c b =? -1) eqn:E; [reflexivity|].
    apply Z.eqb_neq in E.
    destruct (Z.of_nat (String.length a) + rfind c b =? -1) eqn:E'; 
      [apply Z.eqb_eq in E'; lia|].
    cbn [String.length]. lia.
Qed.

Lemma str_drop_app (a b : string) : str_drop (String.length a) (a ++ b)%string = b.
Proof. induction a as [|x a IH]; [reflexivity | exact IH]. Qed.

Lemma append_length (a b : string) :
  String.length (a ++ b)%string = (String.length a + String.length b)%nat.
Proof. induction a as [|x a IH]; simpl; [reflexivity | now rewrite IH]. Qed.

Lemma endswith_char_rfind (c : ascii) (s : string) :
  endswith_char c s = true -> rfind c s = Z.of_nat (String.length s) - 1.
Proof.
  unfold endswith_char. induction s as [|a s IH]; [discriminate|].
  cbn [String.length]. rewrite Nat.sub_succ, Nat.sub_0_r, rfind_cons.
  destruct s as [|a' s'].
  - simpl. destruct (Ascii.eqb a c); [reflexivity | discriminate].
  - intros H. assert (Hs : rfind c (String a' s') = Z.of_nat (String.length (String a' s')) - 1).
    { apply IH. cbn [String.length]. rewrite Nat.sub_succ, Nat.sub_0_r.
      cbn [String.length] in H. exact H. }
    rewrite Hs. cbn [String.length].
    destruct (Z.of_nat (S (String.length s')) - 1 =? -1) eqn:E;
      [apply Z.eqb_eq in E; lia | lia].
Qed.

Lemma no_sep_not_absolute (f : string) : rfind "/" f = -1 -> startswith "/" f = false.
Proof.
  destruct f as [|a f]; [reflexivity|]. rewrite rfind_cons. intros H.
  unfold startswith. cbn [String.prefix].
  destruct (ascii_dec "/" a) as [<-|Hne]; [|reflexivity].
  rewrite Ascii.eqb_refl in H. pose proof (rfind_range "/" f).
  destruct (rfind "/" f =? -1); lia.
Qed.

(** The base name of a path that [os.path.join] makes of a directory and a
    name without separator is that name. *)
Lemma basename_join (dirpath f : string) :
  rfind "/" f = -1 -> os_path_basename (os_path_join dirpath f) = f.
Proof.
  intros Hf. unfold os_path_basename, os_path_join.
  rewrite (no_sep_not_absolute f Hf).
  destruct (String.eqb_spec dirpath "") as [->|Hd]; cbn [orb].
  - simpl String.append. rewrite Hf. change (-1 + 1) with (Z.of_nat 0).
    now rewrite str_from_drop by lia.
  - destruct (endswith_char "/" dirpath) eqn:Ee.
    + rewrite rfind_app, Hf. change (-1 =? -1) with true. cbv iota.
      rewrite (endswith_char_rfind _ _ Ee).
      replace (Z.of_nat (String.length dirpath) - 1 + 1)
        with (Z.of_nat (String.length dirpath)) by lia.
      rewrite str_from_drop by (rewrite append_length; lia).
      apply str_drop_app.
    + rewrite rfind_app.
      assert (Hs : rfind "/" ("/" ++ f)%string = 0).
      { simpl String.append. rewrite rfind_cons, Hf. reflexivity. }
      rewrite Hs. change (0 =? -1) with false. cbv iota.
      replace (Z.of_nat (String.length dirpath) + 0 + 1)
        with (Z.of_nat (S (String.length dirpath))) by lia.
      rewrite str_from_drop by (rewrite append_length; simpl; lia).
      cbn [str_drop]. destruct dirpath as [|x d]; [contradiction|].
      simpl String.append.
      pose proof (str_drop_app (String x d ++ "/") f) as H.
      rewrite append_length in H. simpl in H.
      replace (String.length d + 1)%nat with (S (String.length d)) in H by lia.
      simpl.
      assert (Ha : ((d ++ "/") ++ f)%string = (d ++ String "/" f)%string).
      { clear. induction d as [|y d IH]; simpl; [reflexivity | now rewrite IH]. }
      rewrite Ha in H. exact H.
Qed.

(** ** The routes for one file *)

Lemma append_eq_empty (a b : string) : (a ++ b)%string = "" -> a = "" /\ b = "".
Proof. destruct a; simpl; [auto | discriminate]. Qed.

Lemma rstrip_app (a b : string) :
  rstrip (a ++ b)%string
  = if String.eqb (rstrip b) "" then rstrip a else (a ++ rstrip b)%string.
Proof.
  induction a as [|x a IH].
  - simpl. destruct (String.eqb_spec (rstrip b) "") as [->|]; reflexivity.
  - simpl String.append. cbn [rstrip]. rewrite IH.
    destruct (String.eqb_spec (rstrip b) "") as [Hb|Hb]; [reflexivity|].
    destruct (String.eqb_spec (a ++ rstrip b)%string "") as [He|He].
    + apply append_eq_empty in He. destruct He. contradiction.
    + now rewrite andb_false_r.
Qed.

Lemma strip_stream_url (p : string) :
  strip ("/stream?file_path=" ++ p)%string = ("/stream?file_path=" ++ rstrip p)%string.
Proof.
  unfold strip. rewrite rstrip_app.
  destruct (String.eqb_spec (rstrip p) "") as [->|_]; reflexivity.
Qed.

Lemma strip_download_url (p : string) :
  strip ("/stream?file_path=" ++ p ++ "&download=true")%string
  = ("/stream?file_path=" ++ p ++ "&download=true")%string.
Proof.
  unfold strip. rewrite rstrip_app, (rstrip_app p "&download=true").
  change (rstrip "&download=true") with "&download=true".
  change (String.eqb "&download=true" "") with false. cbv iota.
  destruct (String.eqb_spec (p ++ "&download=true")%string "") as [He|_].
  - apply append_eq_empty in He. destruct He. discriminate.
  - reflexivity.
Qed.

Lemma file_info_response_fields (path name extension : string) (size : Z)
    (size_human content_type mt ct at_ : string) (is_symlink : bool)
    (inode mode uid gid : Z) (stream_url download_url : string)
    (r : FileInfoResponse.t) :
  FileInfoResponse.new path name extension size size_human content_type mt ct at_
    is_symlink inode mode uid gid stream_url download_url = Ok r ->
  r = FileInfoResponse.mk (strip path) (strip name) (strip extension) size
        (strip size_human) (strip content_type) (strip mt) (strip ct) (strip at_)
        is_symlink inode mode uid gid (strip stream_url) (strip download_url).
Proof.
  unfold FileInfoResponse.new, check, rbind.
  repeat match goal with
         | |- context [if ?b then _ else _] => destruct b; [|discriminate]
         end.
  now intros [= <-].
Qed.

(** X24. In an answer of [GET /file-info], [download_url] names the path as
    it was asked for, and [stream_url] names it with the white space at its
    end removed; for a path that does not end in white space
    [download_url] is [stream_url] followed by [&download=true]. *)
Theorem file_info_urls (fs : FileOS) (file_path : string)
    (response : FileInfoResponse.t) (lg : list file_log_record) :
  get_file_info fs file_path = (Ok response, lg) ->
  FileInfoResponse.download_url response
  = ("/stream?file_path=" ++ file_path ++ "&download=true")%string
  /\ FileInfoResponse.stream_url response
     = ("/stream?file_path=" ++ rstrip file_path)%string
  /\ (rstrip file_path = file_path ->
      FileInfoResponse.download_url response
      = (FileInfoResponse.stream_url response ++ "&download=true")%string).
Proof.
  unfold get_file_info. destruct (is_safe_path fs file_path) as [[|]|]; try discriminate.
  destruct (os_stat (base fs) file_path) as [stats|]; [|discriminate].
  destruct (file_info_of fs file_path stats) as [r|] eqn:E; [|discriminate].
  intros [= <- _]. unfold file_info_of, rbind in E.
  destruct (datetime_fromtimestamp _ (st_mtime stats)); [|discriminate].
  destruct (datetime_fromtimestamp _ (st_ctime stats)); [|discriminate].
  destruct (datetime_fromtimestamp _ (st_atime stats)); [|discriminate].
  apply file_info_response_fields in E. subst r.
  cbn [FileInfoResponse.download_url FileInfoResponse.stream_url].
  rewrite strip_download_url, strip_stream_url. repeat split.
  intros ->. clear. induction "/stream?file_path=" as [|c s IH]; simpl;
    [reflexivity | now rewrite IH].
Qed.

Lemma file_entry_new_record (size : Z) (path name extension : string)
    (mt ct at_ : datetime) (is_symlink : bool) (inode mode uid gid : Z)
    (e : FileEntry.t) :
  FileEntry.new size path name extension mt ct at_ is_symlink inode mode uid gid = Ok e ->
  e = FileEntry.mk size (strip path) (strip name) (strip extension) mt ct at_
        is_symlink inode mode uid gid
  /\ 1 <= len_str (strip path) /\ 1 <= len_str (strip name).
Proof.
  unfold FileEntry.new, FileEntry.validate_path, check, rbind.
  destruct (0 <=? size); [|discriminate].
  destruct (1 <=? len_str (strip path)) eqn:E2; [|discriminate].
  destruct (negb (os_path_isabs (strip path))); [discriminate|].
  destruct (1 <=? len_str (strip name)) eqn:E4; [|discriminate].
  destruct (0 <=? inode); [|discriminate].
  destruct (0 <=? mode); [|discriminate].
  destruct (0 <=? uid); [|discriminate].
  destruct (0 <=? gid); [|discriminate].
  intros [= <-]. apply Z.leb_le in E2, E4. auto.
Qed.

(** X25. [GET /file-info] agrees with the scan: for a file that the walk
    lists under [dirpath] by a name without separator and whose record
    [collect_file_stats] builds, the route, asked for the joined path and
    finding it safe, answers, and its answer has the path, name, extension,
    size, link flag, inode, mode, owner and group of that record, and its
    three times printed by [isoformat]. *)
Theorem file_info_agrees_with_scan (fs : FileOS) (dirpath f : string)
    (e : FileEntry.t) :
  rfind "/" f = -1 ->
  entry_of_file (base fs) (dirpath, f) = [e] ->
  is_safe_path fs (os_path_join dirpath f) = Ok true ->
  exists response : FileInfoResponse.t,
    get_file_info fs (os_path_join dirpath f)
    = (Ok response, [InfoGettingInfo (os_path_join dirpath f)])
    /\ FileInfoResponse.path response = FileEntry.path e
    /\ FileInfoResponse.name response = FileEntry.name e
    /\ FileInfoResponse.extension response = FileEntry.extension e
    /\ FileInfoResponse.size response = FileEntry.size e
    /\ FileInfoResponse.is_symlink response = FileEntry.is_symlink e
    /\ FileInfoResponse.inode response = FileEntry.inode e
    /\ FileInfoResponse.mode response = FileEntry.mode e
    /\ FileInfoResponse.owner_uid response = FileEntry.owner_uid e
    /\ FileInfoResponse.group_gid response = FileEntry.group_gid e
    /\ FileInfoResponse.modified_time response
       = strip (isoformat fs (FileEntry.modified_time e))
    /\ FileInfoResponse.created_time response
       = strip (isoformat fs (FileEntry.created_time e))
    /\ FileInfoResponse.accessed_time response
       = strip (isoformat fs (FileEntry.accessed_time e)).
Proof.
  intros Hf He Hsafe. unfold get_file_info. rewrite Hsafe.
  unfold entry_of_file in He. cbn [fst snd] in He.
  destruct (os_stat (base fs) (os_path_join dirpath f)) as [stats|]; [|discriminate].
  unfold file_info_of. rewrite (basename_join dirpath f Hf).
  unfold file_entry_of, file_extension, rbind in *.
  destruct (datetime_fromtimestamp _ (st_mtime stats)) as [mt|]; [|discriminate].
  destruct (datetime_fromtimestamp _ (st_ctime stats)) as [ct|]; [|discriminate].
  destruct (datetime_fromtimestamp _ (st_atime stats)) as [at_|]; [|discriminate].
  destruct (FileEntry.new _ _ _ _ _ _ _ _ _ _ _ _) as [e'|] eqn:E; [|discriminate].
  injection He as ->. apply file_entry_new_record in E. destruct E as (-> & Hp & Hn).
  unfold FileInfoResponse.new, check, rbind.
  replace (1 <=? len_str (strip (os_path_abspath (base fs) (os_path_join dirpath f))))
    with true by (symmetry; now apply Z.leb_le).
  replace (1 <=? len_str (strip f)) with true by (symmetry; now apply Z.leb_le).
  repeat match goal with
         | |- context [0 <=? Z.of_N ?n] =>
             replace (0 <=? Z.of_N n) with true by (symmetry; apply Z.leb_le; lia)
         end.
  eexists. split; [reflexivity|]. cbn. repeat split.
Qed.

(** X26. When [os.path.realpath] returns, or raises an [OSError] or a
    [ValueError], the two routes for one file answer or raise an HTTP 400
    or 500 and nothing else: whatever [os.stat], the timestamps or the
    validation of the answer raise is turned into an HTTP 500; and a path
    that is not safe gets the HTTP 400 from both. *)
Theorem file_routes_raise_only_http (fs : FileOS) (file_path : string)
    (download : bool) :
  match os_path_realpath fs file_path with
  | Ok _ | Raise (OSError _) | Raise (ValueError _) =>
      exists safe,
        is_safe_path fs file_path = Ok safe
        /\ only_http_errors (fst (stream_file fs file_path download))
        /\ only_http_errors (fst (get_file_info fs file_path))
        /\ (safe = false ->
            fst (stream_file fs file_path download)
            = Raise (HTTPException 400 "Invalid file path or file does not exist")
            /\ fst (get_file_info fs file_path)
               = Raise (HTTPException 400 "Invalid file path or file does not exist"))
  | Raise _ => True
  end.
Proof.
  assert (H : forall safe, is_safe_path fs file_path = Ok safe ->
                only_http_errors (fst (stream_file fs file_path download))
                /\ only_http_errors (fst (get_file_info fs file_path))
                /\ (safe = false ->
                    fst (stream_file fs file_path download)
                    = Raise (HTTPException 400 "Invalid file path or file does not exist")
                    /\ fst (get_file_info fs file_path)
                       = Raise (HTTPException 400
                                  "Invalid file path or file does not exist"))).
  { intros safe Hs. unfold stream_file, get_file_info. rewrite Hs.
    destruct safe.
    - split; [|split; [|discriminate]].
      + destruct (os_stat_follow fs file_path); simpl; auto.
      + destruct (os_stat (base fs) file_path) as [stats|]; simpl; auto.
        destruct (file_info_of fs file_path stats); simpl; auto.
    - simpl. auto. }
  unfold is_safe_path in H.
  destruct (os_path_realpath fs file_path) as [r|e] eqn:E.
  - eexists. split; [unfold is_safe_path; rewrite E; reflexivity|]. now apply H.
  - destruct e; try exact I; exists false;
      (split; [unfold is_safe_path; rewrite E; reflexivity|]); now apply H.
Qed.

(** X27. What [/stream] announces is what it delivers, when the file does
    not change under it: if the file opens, no read fails and it holds as
    many bytes as [os.stat] reported, the body ends normally, its chunks
    hold at most 8192 bytes each and, put together, are the file, and
    [Content-Length] is their number of bytes. *)
Theorem stream_delivers_content_length (fs : FileOS) (file_path : string)
    (download : bool) (response : StreamingResponse) (lg : list file_log_record)
    (file_stats : stat_result) (f : binary_file) :
  stream_file fs file_path download = (Ok response, lg) ->
  os_stat_follow fs file_path = Ok file_stats ->
  open_rb fs file_path = Ok f ->
  (forall pos, read_raises f pos = None) ->
  N.of_nat (List.length (file_bytes f)) = st_size file_stats ->
  exists cs : list (list Byte.byte),
    body response = Some {| chunks := cs; failure := None |}
    /\ List.concat cs = file_bytes f
    /\ Forall (fun c => Z.of_nat (List.length c) <= 8192) cs
    /\ option_map N_of_str (dict_get "Content-Length" (headers response))
       = Some (Some (N.of_nat (List.length (List.concat cs)))).
Proof.
  intros Hr Hst Ho Hok Hsz. unfold stream_file in Hr.
  destruct (is_safe_path fs file_path) as [[|]|]; try discriminate.
  rewrite Hst in Hr. injection Hr as <- _. cbn [body headers].
  destruct (generated_chunks_reassemble_aux fs file_path 8192 f Ho Hok)
    as (cs & Hg & Hc & Hb & _); [lia|].
  exists cs. split; [exact Hg|]. split; [exact Hc|]. split; [apply Hb; lia|].
  rewrite Hc, Hsz. cbn. now rewrite N_of_str_of_N.
Qed.

(** ** Instances for the further properties *)

(** The record of [a.txt] built from what the walk passes to [FileEntry]. *)
Lemma file_entry_validation_idempotent_witness :
  revalidate (entry 100 "/data/a.txt" "a.txt" ".txt")
  = Ok (entry 100 "/data/a.txt" "a.txt" ".txt")
  /\ 0 <= FileEntry.size (entry 100 "/data/a.txt" "a.txt" ".txt")
  /\ os_path_isabs (FileEntry.path (entry 100 "/data/a.txt" "a.txt" ".txt")) = true
  /\ FileEntry.name (entry 100 "/data/a.txt" "a.txt" ".txt") <> ""
  /\ 0 <= FileEntry.inode (entry 100 "/data/a.txt" "a.txt" ".txt")
  /\ 0 <= FileEntry.mode (entry 100 "/data/a.txt" "a.txt" ".txt")
  /\ 0 <= FileEntry.owner_uid (entry 100 "/data/a.txt" "a.txt" ".txt")
  /\ 0 <= FileEntry.group_gid (entry 100 "/data/a.txt" "a.txt" ".txt").
Proof.
  apply (file_entry_validation_idempotent 100 " /data/a.txt" "a.txt " ".txt"
           0 0 0 false 7 33188 1000 1000).
  reflexivity.
Defined.

(** No extension of the scenarios ends in white space. *)
Lemma scenario_extensions_stripped (F : option string) :
  extensions_stripped (filter (kept F) (walk_files (os_walk scenario_os "/data"))).
Proof.
  intros df Hin. apply filter_In in Hin. destruct Hin as [Hin _].
  simpl in Hin. destruct Hin as [<-|[<-|[<-|[]]]]; reflexivity.
Defined.

(** The entries of the first scenario: 2 + 1 files, 150 + 200 bytes. *)
Lemma extension_entries_sum_to_totals_witness :
  exists (report : Report.t) (lg' : logger),
    collect_file_stats scenario_os "/data" None [] = (Ok report, lg')
    /\ sum_counts (Report.extensions report) = Report.file_count report
    /\ sum_sizes (Report.extensions report) = Report.total_size report.
Proof.
  apply (extension_entries_sum_to_totals scenario_os "/data" None []).
  apply scenario_extensions_stripped.
Defined.

(** The scenarios walked with [b.txt] before [a.txt]. *)
Lemma walk_order_irrelevant_witness :
  exists (report report' : Report.t) (lg1 lg2 : logger),
    collect_file_stats scenario_os "/data" None [] = (Ok report, lg1)
    /\ collect_file_stats (with_walk scenario_os scenario_walk_swapped) "/data" None []
       = (Ok report', lg2)
    /\ Report.file_count report' = Report.file_count report
    /\ Report.total_size report' = Report.total_size report
    /\ Permutation (Report.all_files report) (Report.all_files report')
    /\ (NoDup (map FileEntry.size (Report.all_files report)) ->
        Report.all_files report' = Report.all_files report
        /\ Report.largest_files report' = Report.largest_files report)
    /\ (extensions_stripped
          (filter (kept None) (walk_files (os_walk scenario_os "/data"))) ->
        forall k, dict_get k (Report.extensions report')
                  = dict_get k (Report.extensions report)).
Proof.
  apply (walk_order_irrelevant scenario_os "/data" None [] scenario_walk_swapped).
  simpl. apply perm_swap.
Defined.

(** The file that is gone: an empty report and one warning. *)
Lemma unreadable_tree_gives_empty_report_witness :
  exists (warnings : list log_record) (scanned : log_record),
    collect_file_stats vanished_os "/data" None []
    = (Ok (Report.mk 0 0 [] [] []), [] ++ warnings ++ [scanned])
    /\ Forall is_warning warnings
    /\ List.length warnings = List.length (walk_files (os_walk vanished_os "/data")).
Proof.
  apply (unreadable_tree_gives_empty_report vanished_os "/data" None []).
  intros df _. exists (OSError "No such file or directory"). reflexivity.
Defined.

(** The second page of two of the scenario is the last. *)
Lemma has_next_iff_next_page_witness :
  exists page next : PaginatedFiles.t,
    paginated_view scenario_report 2 1 = Ok page
    /\ paginated_view scenario_report 2 (1 + 2) = Ok next
    /\ (PaginatedFiles.has_next page = true <-> PaginatedFiles.results next <> [])
    /\ (PaginatedFiles.results page = []
        <-> Z.of_nat (List.length (Report.all_files scenario_report)) <= 1).
Proof. apply (has_next_iff_next_page scenario_report 2 1); lia. Defined.

(** The scenario read two records at a time. *)
Lemma pages_descend_witness :
  exists (report : Report.t) (lg' : logger) (page next : PaginatedFiles.t),
    collect_file_stats scenario_os "/data" None [] = (Ok report, lg')
    /\ paginated_view report 2 0 = Ok page
    /\ paginated_view report 2 (0 + 2) = Ok next
    /\ StronglySorted (desc FileEntry.size) (PaginatedFiles.results page)
    /\ (forall a b, In a (PaginatedFiles.results page) ->
                    In b (PaginatedFiles.results next) ->
                    FileEntry.size b <= FileEntry.size a).
Proof. apply (pages_descend scenario_os "/data" None [] 2 0); lia. Defined.

(** The extensions of the scenarios. *)
Lemma extension_list_holds_report_entries_witness :
  exists (report : Report.t) (lg' : logger) (response : ExtensionListResponse.t),
    collect_file_stats scenario_os "/data" None ([] ++ [InfoGettingExtensions "/data"])
    = (Ok report, lg')
    /\ get_available_extensions scenario_os "/data" [] = (Ok response, lg')
    /\ ExtensionListResponse.path response = strip "/data"
    /\ ExtensionListResponse.extensions response
       = map (info_of scenario_os)
           (py_sorted_reverse (fun x => ExtensionStats.count (snd x))
              (Report.extensions report))
    /\ Permutation (map (info_of scenario_os) (Report.extensions report))
         (ExtensionListResponse.extensions response).
Proof.
  apply (extension_list_holds_report_entries scenario_os "/data" []);
    [reflexivity | discriminate].
Defined.


(** [/stream] for [hello.txt] as a download. *)
Lemma stream_file_headers_witness :
  (exists resolved, os_path_realpath hello_fs "/srv/hello.txt" = Ok resolved
                    /\ os_path_exists hello_fs resolved = true
                    /\ os_path_isfile hello_fs resolved = true)
  /\ exists file_stats,
       os_stat_follow hello_fs "/srv/hello.txt" = Ok file_stats
       /\ dict_get "Content-Length" (headers hello_response)
          = Some (str_of_N (st_size file_stats))
       /\ option_map N_of_str (dict_get "Content-Length" (headers hello_response))
          = Some (Some (st_size file_stats))
       /\ dict_get "Accept-Ranges" (headers hello_response) = Some "bytes"
       /\ dict_get "Content-Disposition" (headers hello_response)
          = Some ((if true then "attachment" else "inline")
                  ++ "; filename=" ++ dquote ++ os_path_basename "/srv/hello.txt"
                  ++ dquote)%string
       /\ List.length (headers hello_response) = 3%nat
       /\ media_type hello_response <> ""
       /\ body hello_response = generate_file_chunks hello_fs "/srv/hello.txt" 8192.
Proof.
  apply (stream_file_headers hello_fs "/srv/hello.txt" true hello_response
           [InfoStreaming "/srv/hello.txt" "some bytes"]).
  reflexivity.
Defined.

(** [/file-info] for [hello.txt]. *)
Lemma file_info_urls_witness :
  FileInfoResponse.download_url hello_info
  = ("/stream?file_path=" ++ "/srv/hello.txt" ++ "&download=true")%string
  /\ FileInfoResponse.stream_url hello_info
     = ("/stream?file_path=" ++ rstrip "/srv/hello.txt")%string
  /\ (rstrip "/srv/hello.txt" = "/srv/hello.txt" ->
      FileInfoResponse.download_url hello_info
      = (FileInfoResponse.stream_url hello_info ++ "&download=true")%string).
Proof.
  apply (file_info_urls hello_fs "/srv/hello.txt" hello_info
           [InfoGettingInfo "/srv/hello.txt"]).
  reflexivity.
Defined.

(** [hello.txt] in the scan of [/srv] and in [/file-info]. *)
Lemma file_info_agrees_with_scan_witness :
  exists response : FileInfoResponse.t,
    get_file_info hello_fs (os_path_join "/srv" "hello.txt")
    = (Ok response, [InfoGettingInfo (os_path_join "/srv" "hello.txt")])
    /\ FileInfoResponse.path response = FileEntry.path (entry 5 "/srv/hello.txt" "hello.txt" ".txt")
    /\ FileInfoResponse.name response = FileEntry.name (entry 5 "/srv/hello.txt" "hello.txt" ".txt")
    /\ FileInfoResponse.extension response
       = FileEntry.extension (entry 5 "/srv/hello.txt" "hello.txt" ".txt")
    /\ FileInfoResponse.size response = FileEntry.size (entry 5 "/srv/hello.txt" "hello.txt" ".txt")
    /\ FileInfoResponse.is_symlink response
       = FileEntry.is_symlink (entry 5 "/srv/hello.txt" "hello.txt" ".txt")
    /\ FileInfoResponse.inode response = FileEntry.inode (entry 5 "/srv/hello.txt" "hello.txt" ".txt")
    /\ FileInfoResponse.mode response = FileEntry.mode (entry 5 "/srv/hello.txt" "hello.txt" ".txt")
    /\ FileInfoResponse.owner_uid response
       = FileEntry.owner_uid (entry 5 "/srv/hello.txt" "hello.txt" ".txt")
    /\ FileInfoResponse.group_gid response
       = FileEntry.group_gid (entry 5 "/srv/hello.txt" "hello.txt" ".txt")
    /\ FileInfoResponse.modified_time response
       = strip (isoformat hello_fs
                  (FileEntry.modified_time (entry 5 "/srv/hello.txt" "hello.txt" ".txt")))
    /\ FileInfoResponse.created_time response
       = strip (isoformat hello_fs
                  (FileEntry.created_time (entry 5 "/srv/hello.txt" "hello.txt" ".txt")))
    /\ FileInfoResponse.accessed_time response
       = strip (isoformat hello_fs
                  (FileEntry.accessed_time (entry 5 "/srv/hello.txt" "hello.txt" ".txt"))).
Proof.
  apply (file_info_agrees_with_scan hello_fs "/srv" "hello.txt"
           (entry 5 "/srv/hello.txt" "hello.txt" ".txt"));
    reflexivity.
Defined.

(** [/stream] for [hello.txt]: five bytes announced, five delivered. *)
Lemma stream_delivers_content_length_witness :
  exists cs : list (list Byte.byte),
    body hello_response = Some {| chunks := cs; failure := None |}
    /\ List.concat cs = file_bytes hello_file
    /\ Forall (fun c => Z.of_nat (List.length c) <= 8192) cs
    /\ option_map N_of_str (dict_get "Content-Length" (headers hello_response))
       = Some (Some (N.of_nat (List.length (List.concat cs)))).
Proof.
  apply (stream_delivers_content_length hello_fs "/srv/hello.txt" true hello_response
           [InfoStreaming "/srv/hello.txt" "some bytes"] (plain_stat 5) hello_file);
    reflexivity.
Defined.
